(** * NotebookCellTextModel: a shallow embedding

    Source: src/vs/workbench/contrib/notebook/common/model/notebookCellTextModel.ts

    The class is embedded with explicit state passing.  A [World] holds the
    cell object ([this]), the store of caller-owned splice arrays (arrays are
    shared mutable objects in the source), and the history of effects the
    cell has caused (emitter firings, buffer constructions, disposals). *)

From Stdlib Require Import ZArith Lia.
From stdpp Require Import base gmap list strings.

Open Scope Z_scope.

(** ** Values and records of notebookCommon *)

(** The values a metadata field can hold. *)
Inductive JsValue :=
| JsUndefined
| JsNull
| JsBool (b : bool)
| JsNumber (n : Z)
| JsString (s : string).

#[global] Instance JsValue_eq_dec : EqDecision JsValue.
Proof. solve_decision. Defined.

(** [a ?? b]: the right operand is taken when the left one is [null] or
    [undefined]. *)
Definition nullish (a b : JsValue) : JsValue :=
  match a with
  | JsUndefined | JsNull => b
  | _ => a
  end.

(** Property read [o?.k] / [o[k]] on a plain object: a missing key reads
    as [undefined]. *)
Definition prop (o : gmap string JsValue) (k : string) : JsValue :=
  default JsUndefined (o !! k).

Inductive CellKind := Markdown | Code.

(** Modelled from the spec: the output DTO types (IOutputItemDto,
    IOutputDto, ICellOutput of notebookCommon) are not among the sources.
    An output record has an identifier and an ordered list of mime-typed
    representation entries. *)
Record IOutputItemDto := mkItem { mime : string; value : string }.

Record ICellOutput := mkOutput { outputs : list IOutputItemDto; outputId : string }.

#[global] Instance IOutputItemDto_eq_dec : EqDecision IOutputItemDto.
Proof. solve_decision. Defined.

#[global] Instance ICellOutput_eq_dec : EqDecision ICellOutput.
Proof. solve_decision. Defined.

(** [NotebookCellOutputsSplice = [start, deleteCount, newOutputs]]. *)
Definition NotebookCellOutputsSplice : Type := Z * Z * list ICellOutput.

Definition splice_start (s : NotebookCellOutputsSplice) : Z := s.1.1.
Definition splice_count (s : NotebookCellOutputsSplice) : Z := s.1.2.
Definition splice_items (s : NotebookCellOutputsSplice) : list ICellOutput := s.2.

Record TransientOptions := mkTransient {
  transientMetadata : gmap string bool;
  transientOutputs : bool
}.

Record NotebookDocumentMetadata := mkDocMeta {
  cellEditable : bool;
  cellHasExecutionOrder : bool
}.

(** ** Array.prototype.splice *)

Module JsArray.

(** [arr.splice(start, deleteCount, ...items)] on integer arguments: a
    negative start counts from the end, both numbers are clamped to the
    array.  Returns the array as it is after the call. *)
Definition splice {A} (arr : list A) (start deleteCount : Z) (items : list A) : list A :=
  let len := Z.of_nat (length arr) in
  let actualStart :=
    if start <? 0 then Z.max (len + start) 0 else Z.min start len in
  let actualDeleteCount := Z.min (Z.max deleteCount 0) (len - actualStart) in
  take (Z.to_nat actualStart) arr ++ items
    ++ drop (Z.to_nat (actualStart + actualDeleteCount)) arr.

End JsArray.

(** ** The text buffer *)

Inductive EndOfLine := LF | CRLF.

Inductive EndOfLinePreference := TextDefined | PreferLF | PreferCRLF.

Record Range := mkRange {
  startLineNumber : nat; startColumn : nat;
  endLineNumber : nat; endColumn : nat
}.

(** Modelled from the spec: the edit-optimized text buffer
    (PieceTreeTextBuffer and its builder) is an external collaborator and is
    not among the sources.  It is modelled by its observable content: the
    lines of text without their terminators, the end-of-line convention, whether
    it has been disposed, and how many content-change listeners of the cell
    are attached to it.  [buf_id] is the identity of the object. *)
Record TextBuffer := mkBuffer {
  buf_id : nat;
  buf_lines : list string;
  buf_eol : EndOfLine;
  buf_disposed : bool;
  buf_listeners : nat
}.

Module Buffer.

Definition newline : string := String (Ascii.ascii_of_nat 10) "".
Definition carriage_newline : string :=
  String (Ascii.ascii_of_nat 13) (String (Ascii.ascii_of_nat 10) "").

Definition eol_string (e : EndOfLine) : string :=
  match e with LF => newline | CRLF => carriage_newline end.

Definition getEOL (b : TextBuffer) : string := eol_string (buf_eol b).

Definition getLineCount (b : TextBuffer) : nat := length (buf_lines b).

Definition getLineContent (b : TextBuffer) (lineNumber : nat) : string :=
  nth (lineNumber - 1) (buf_lines b) "".

Definition getLineLength (b : TextBuffer) (lineNumber : nat) : nat :=
  String.length (getLineContent b lineNumber).

Definition join (sep : string) (ls : list string) : string :=
  match ls with
  | [] => ""
  | l :: rest => fold_left (fun acc x => acc +:+ sep +:+ x) rest l
  end.

(** Total number of characters, line terminators included. *)
Definition getLength (b : TextBuffer) : nat :=
  String.length (join (getEOL b) (buf_lines b)).

Definition preferred (b : TextBuffer) (p : EndOfLinePreference) : string :=
  match p with
  | TextDefined => getEOL b
  | PreferLF => newline
  | PreferCRLF => carriage_newline
  end.

(** The text between two positions (1-based lines and columns, end
    exclusive), lines joined by the preferred terminator. *)
Definition getValueInRange (b : TextBuffer) (r : Range) (p : EndOfLinePreference) : string :=
  if (startLineNumber r =? endLineNumber r)%nat then
    String.substring (startColumn r - 1) (endColumn r - startColumn r)
      (getLineContent b (startLineNumber r))
  else
    let first := getLineContent b (startLineNumber r) in
    let last := getLineContent b (endLineNumber r) in
    let middle :=
      take (endLineNumber r - startLineNumber r - 1)
        (drop (startLineNumber r) (buf_lines b)) in
    join (preferred b p)
      (String.substring (startColumn r - 1) (String.length first) first
         :: middle ++ [String.substring 0 (endColumn r - 1) last]).

(** [new PieceTreeTextBuffer([], '', '\n', ...)] followed by [dispose()]:
    no chunks, one empty line, no listeners left. *)
Definition emptyDisposed (id : nat) : TextBuffer :=
  {| buf_id := id; buf_lines := [""]; buf_eol := LF;
     buf_disposed := true; buf_listeners := 0 |}.

End Buffer.

(** ** The cell and its world *)

(** What [this._register] keeps until [dispose]. *)
Inductive Registered :=
| BufferHandle (id : nat)          (* the [disposable] of the buffer factory *)
| ContentSubscription (id : nat).  (* the listener on [onDidChangeContent] *)

(** Modelled from the spec: the [Disposable] base class (lifecycle) is not
    among the sources.  It owns a store of registered resources which are
    released once; disposing an already disposed store does nothing. *)
Record DisposableStore := mkStore {
  isDisposed : bool;
  toDispose : list Registered
}.

Record NotebookCellTextModel := mkCell {
  uri : string;
  handle : Z;
  _source : string;
  _language : string;
  cellKind : CellKind;
  _outputs : list ICellOutput;
  _metadata : gmap string JsValue;
  transientOptions : TransientOptions;
  _textBuffer : option TextBuffer;     (* undefined until first access *)
  _hash : option Z;                    (* number | null *)
  _store : DisposableStore
}.

Inductive Effect :=
| OutputsChanged (payload : nat) (seen : list NotebookCellOutputsSplice)
    (* _onDidChangeOutputs.fire(splices): the array passed, and what a
       subscriber reads in it when notified *)
| ContentChanged
| MetadataChanged
| LanguageChanged (newLanguage : string)
| BufferBuilt (id : nat) (source : string)
| ListenerAttached (id : nat)
| PlaceholderBuilt (id : nat)
| Released (d : Registered).

#[global] Instance Registered_eq_dec : EqDecision Registered.
Proof. solve_decision. Defined.

#[global] Instance Effect_eq_dec : EqDecision Effect.
Proof. solve_decision. Defined.

Record World := mkWorld {
  cell : NotebookCellTextModel;
  arrays : gmap nat (list NotebookCellOutputsSplice);
  effects : list Effect;     (* oldest first *)
  allocated : nat            (* buffer objects created so far *)
}.

Definition with_language (l : string) (c : NotebookCellTextModel) :=
  mkCell (uri c) (handle c) (_source c) l (cellKind c) (_outputs c)
    (_metadata c) (transientOptions c) (_textBuffer c) (_hash c) (_store c).

Definition with_outputs (o : list ICellOutput) (c : NotebookCellTextModel) :=
  mkCell (uri c) (handle c) (_source c) (_language c) (cellKind c) o
    (_metadata c) (transientOptions c) (_textBuffer c) (_hash c) (_store c).

Definition with_metadata (m : gmap string JsValue) (c : NotebookCellTextModel) :=
  mkCell (uri c) (handle c) (_source c) (_language c) (cellKind c) (_outputs c)
    m (transientOptions c) (_textBuffer c) (_hash c) (_store c).

Definition with_textBuffer (b : option TextBuffer) (c : NotebookCellTextModel) :=
  mkCell (uri c) (handle c) (_source c) (_language c) (cellKind c) (_outputs c)
    (_metadata c) (transientOptions c) b (_hash c) (_store c).

Definition with_hash (h : option Z) (c : NotebookCellTextModel) :=
  mkCell (uri c) (handle c) (_source c) (_language c) (cellKind c) (_outputs c)
    (_metadata c) (transientOptions c) (_textBuffer c) h (_store c).

Definition with_store (s : DisposableStore) (c : NotebookCellTextModel) :=
  mkCell (uri c) (handle c) (_source c) (_language c) (cellKind c) (_outputs c)
    (_metadata c) (transientOptions c) (_textBuffer c) (_hash c) s.

Definition on_cell (f : NotebookCellTextModel -> NotebookCellTextModel) (w : World) : World :=
  mkWorld (f (cell w)) (arrays w) (effects w) (allocated w).

Definition emit (e : Effect) (w : World) : World :=
  mkWorld (cell w) (arrays w) (effects w ++ [e]) (allocated w).

Definition with_arrays (a : gmap nat (list NotebookCellOutputsSplice)) (w : World) : World :=
  mkWorld (cell w) a (effects w) (allocated w).

Definition allocate (w : World) : nat * World :=
  (allocated w, mkWorld (cell w) (arrays w) (effects w) (S (allocated w))).

(** [Disposable._register]: the resource is kept for [dispose]; a store
    that is already disposed does not keep it. *)
Definition _register (d : Registered) (w : World) : World :=
  let s := _store (cell w) in
  if isDisposed s then w
  else on_cell (with_store (mkStore false (toDispose s ++ [d]))) w.

(** [Disposable.dispose] ([super.dispose()]). *)
Definition super_dispose (w : World) : World :=
  let s := _store (cell w) in
  if isDisposed s then w
  else
    let w1 := on_cell (with_store (mkStore true [])) w in
    fold_left (fun acc d => emit (Released d) acc) (toDispose s) w1.

(** ** What [hash] is applied to *)

(** The arguments [getHashValue] passes to [hash] (vs/base/common/hash):
    strings, numbers, arrays, a plain object, an output record, and a
    function value (a method taken from the object without calling it). *)
#[warnings="-register-all"]
Inductive HashArg :=
| AString (s : string)
| ANumber (n : Z)
| AMethod (name : string)
| AObject (o : gmap string JsValue)
| AOutput (o : ICellOutput)
| AArray (xs : list HashArg).

(** The snapshot returned by [cloneNotebookCellTextModel]. *)
Record CellSnapshot := mkSnapshot {
  snap_source : string;
  snap_language : string;
  snap_cellKind : CellKind;
  snap_outputs : list ICellOutput;
  snap_metadata : gmap string JsValue
}.

Section Model.

(** [hash] of vs/base/common/hash and the buffer factory
    ([PieceTreeTextBufferBuilder], [acceptChunk], [finish],
    [create(DefaultEndOfLine.LF, true)]) are imported by the source and
    are parameters here: the factory maps the raw source to the lines and
    the end-of-line convention of the buffer it creates. *)
Variable hash : HashArg -> Z.
Variable bufferFactory_create : string -> list string * EndOfLine.

(** [constructor]: [outputs.map(op => new NotebookCellOutputTextModel(op))]
    keeps the content and the identifier of each DTO; [metadata || {}]. *)
Definition construct (uri0 : string) (handle0 : Z) (source language : string)
    (kind : CellKind) (outputs0 : list ICellOutput)
    (metadata : option (gmap string JsValue)) (transient : TransientOptions)
  : NotebookCellTextModel :=
  mkCell uri0 handle0 source language kind outputs0 (default ∅ metadata)
    transient None None (mkStore false []).

Definition boot (c : NotebookCellTextModel) : World := mkWorld c ∅ [] 0%nat.

(** [set metadata] *)
Definition set_metadata (newMetadata : gmap string JsValue) (w : World) : World :=
  let w1 := on_cell (with_metadata newMetadata) w in
  let w2 := on_cell (with_hash None) w1 in
  emit MetadataChanged w2.

(** [set language] *)
Definition set_language (newLanguage : string) (w : World) : World :=
  let w1 := on_cell (with_language newLanguage) w in
  let w2 := on_cell (with_hash None) w1 in
  emit (LanguageChanged newLanguage) w2.

(** The listener installed on the buffer by the getter below. *)
Definition contentListener (w : World) : World :=
  let w1 := on_cell (with_hash None) w in
  emit ContentChanged w1.

(** [get textBuffer] *)
Definition textBuffer (w : World) : TextBuffer * World :=
  match _textBuffer (cell w) with
  | Some b => (b, w)
  | None =>
      let '(id, w1) := allocate w in
      let '(lines, eol) := bufferFactory_create (_source (cell w1)) in
      let w2 := emit (BufferBuilt id (_source (cell w1))) w1 in
      let w3 := on_cell (with_textBuffer (Some (mkBuffer id lines eol false 0))) w2 in
      let w4 := _register (BufferHandle id) w3 in
      let b := mkBuffer id lines eol false 1 in
      let w5 := emit (ListenerAttached id) (on_cell (with_textBuffer (Some b)) w4) in
      let w6 := _register (ContentSubscription id) w5 in
      (b, w6)
  end.

(** [getFullModelRange] *)
Definition getFullModelRange (w : World) : Range * World :=
  let '(b1, w1) := textBuffer w in
  let lineCount := Buffer.getLineCount b1 in
  let '(b2, w2) := textBuffer w1 in
  (mkRange 1 1 lineCount (Buffer.getLineLength b2 lineCount + 1), w2).

(** [getValue] *)
Definition getValue (w : World) : string * World :=
  let '(fullRange, w1) := getFullModelRange w in
  let '(b2, w2) := textBuffer w1 in
  let eol := Buffer.getEOL b2 in
  let '(b3, w3) := textBuffer w2 in
  if String.eqb eol Buffer.newline
  then (Buffer.getValueInRange b3 fullRange PreferLF, w3)
  else (Buffer.getValueInRange b3 fullRange PreferCRLF, w3).

(** The members a plain object inherits from [Object.prototype].  A
    property read finds them when the object has no own property of that
    name, and each of them is truthy. *)
Definition objectPrototypeMembers : gset string :=
  {[ "constructor"; "hasOwnProperty"; "isPrototypeOf"; "propertyIsEnumerable";
     "toLocaleString"; "toString"; "valueOf"; "__proto__";
     "__defineGetter__"; "__defineSetter__"; "__lookupGetter__";
     "__lookupSetter__" ]}.

(** Truthiness of [transientMetadata[key]], [transientMetadata] being a
    plain object of booleans: an own property gives its value, otherwise the
    read falls through to [Object.prototype]. *)
Definition is_transient (t : TransientOptions) (key : string) : bool :=
  match transientMetadata t !! key with
  | Some marked => marked
  | None => bool_decide (key ∈ objectPrototypeMembers)
  end.

(** Whether the loop of [_getPersisentMetadata] leaves [key] as an own key
    of [filteredMetadata]: the key is not transient, and the assignment
    [filteredMetadata[key] = ...] creates a property, which for the name
    [__proto__] it does not (that assignment runs the inherited setter). *)
Definition persists (t : TransientOptions) (key : string) : bool :=
  negb (is_transient t key) && negb (String.eqb key "__proto__").

(** [_getPersisentMetadata] *)
Definition _getPersisentMetadata (c : NotebookCellTextModel) : gmap string JsValue :=
  filter (fun kv => persists (transientOptions c) kv.1 = true) (_metadata c).

(** The array literal handed to [hash] by [getHashValue]: its third entry
    is [this._getPersisentMetadata], the method itself. *)
Definition hashInput (language value : string) (c : NotebookCellTextModel) : HashArg :=
  AArray [ ANumber (hash (AString language));
           ANumber (hash (AString value));
           AMethod "_getPersisentMetadata";
           if transientOutputs (transientOptions c)
           then AArray []
           else AArray (AOutput <$> _outputs c) ].

(** [getHashValue] *)
Definition getHashValue (w : World) : Z * World :=
  match _hash (cell w) with
  | Some h => (h, w)
  | None =>
      let language := _language (cell w) in
      let '(value, w1) := getValue w in
      let h := hash (hashInput language value (cell w1)) in
      (h, on_cell (with_hash (Some h)) w1)
  end.

(** [getTextLength] *)
Definition getTextLength (w : World) : nat * World :=
  let '(b, w1) := textBuffer w in
  (Buffer.getLength b, w1).

(** The contents of array [r]; a reference nobody allocated reads as an
    empty array. *)
Definition deref (r : nat) (w : World) : list NotebookCellOutputsSplice :=
  default [] (arrays w !! r).

(** [spliceNotebookCellOutputs]: [r] is the array the caller passes.
    [splices.reverse()] reverses that array in place and returns it;
    [forEach] then splices [this.outputs] once per entry; the emitter is
    fired with the same array. *)
Definition spliceNotebookCellOutputs (r : nat) (w : World) : World :=
  let w1 := with_arrays (<[r := rev (deref r w)]> (arrays w)) w in
  let w2 :=
    fold_left
      (fun acc splice =>
         on_cell (with_outputs
                    (JsArray.splice (_outputs (cell acc))
                       (splice_start splice) (splice_count splice)
                       (splice_items splice))) acc)
      (deref r w1) w1 in
  emit (OutputsChanged r (deref r w2)) w2.

(** [getEvaluatedMetadata] *)
Definition getEvaluatedMetadata (documentMetadata : NotebookDocumentMetadata)
    (w : World) : gmap string JsValue * World :=
  let editable :=
    nullish (prop (_metadata (cell w)) "editable")
      (JsBool (cellEditable documentMetadata)) in
  let hasExecutionOrder :=
    nullish (prop (_metadata (cell w)) "hasExecutionOrder")
      (JsBool (cellHasExecutionOrder documentMetadata)) in
  (<["hasExecutionOrder" := hasExecutionOrder]>
     (<["editable" := editable]> (_metadata (cell w))), w).

(** [dispose] *)
Definition dispose (w : World) : World :=
  let '(id, w1) := allocate w in
  let emptyDisposedTextBuffer := Buffer.emptyDisposed id in
  let w2 := emit (PlaceholderBuilt id) w1 in
  let w3 := on_cell (with_textBuffer (Some emptyDisposedTextBuffer)) w2 in
  super_dispose w3.

(** Modelled from the spec: a content edit through the buffer.  The
    editor reaches the buffer through the getter, replaces its lines, and
    the buffer notifies each attached content-change listener. *)
Definition applyEdits (newLines : list string) (w : World) : World :=
  let '(b, w1) := textBuffer w in
  let b' := mkBuffer (buf_id b) newLines (buf_eol b) (buf_disposed b) (buf_listeners b) in
  let w2 := on_cell (with_textBuffer (Some b')) w1 in
  Nat.iter (buf_listeners b) contentListener w2.

(** [cloneMetadata] *)
Definition cloneMetadata (c : NotebookCellTextModel) : gmap string JsValue :=
  let m := _metadata c in
  <["custom" := prop m "custom"]>
    (<["outputCollapsed" := prop m "outputCollapsed"]>
       (<["inputCollapsed" := prop m "inputCollapsed"]>
          (<["hasExecutionOrder" := prop m "hasExecutionOrder"]>
             (<["breakpointMargin" := prop m "breakpointMargin"]>
                (<["editable" := prop m "editable"]> ∅))))).

Section Clone.

(** [UUID.generateUuid] (vs/base/common/uuid) draws from a source of
    randomness; it is a parameter threading its own state. *)
Variable UuidSource : Type.
Variable generateUuid : UuidSource -> string * UuidSource.

(** [cell.outputs.map(output => ({ outputs: output.outputs,
    outputId: UUID.generateUuid() }))] *)
Fixpoint cloneOutputs (os : list ICellOutput) (g : UuidSource)
  : list ICellOutput * UuidSource :=
  match os with
  | [] => ([], g)
  | output :: rest =>
      let '(id, g1) := generateUuid g in
      let '(rest', g2) := cloneOutputs rest g1 in
      (mkOutput (outputs output) id :: rest', g2)
  end.

(** [cloneNotebookCellTextModel] *)
Definition cloneNotebookCellTextModel (w : World) (g : UuidSource)
  : CellSnapshot * World * UuidSource :=
  let '(source, w1) := getValue w in
  let '(outs, g1) := cloneOutputs (_outputs (cell w1)) g in
  (mkSnapshot source (_language (cell w1)) (cellKind (cell w1)) outs
     (cloneMetadata (cell w1)), w1, g1).

(** The identifiers the generator hands out in its next [n] calls. *)
Fixpoint drawn (n : nat) (g : UuidSource) : list string :=
  match n with
  | O => []
  | S n' => let '(id, g1) := generateUuid g in id :: drawn n' g1
  end.

End Clone.

(** ** Histories of calls *)

Inductive Op :=
| SetMetadata (m : gmap string JsValue)
| SetLanguage (l : string)
| ReadTextBuffer
| GetValue
| GetHashValue
| GetTextLength
| GetFullModelRange
| GetEvaluatedMetadata (d : NotebookDocumentMetadata)
| CallerArray (r : nat) (splices : list NotebookCellOutputsSplice)
| SpliceOutputs (r : nat)
| Edit (newLines : list string)
| Dispose.

Definition step (w : World) (o : Op) : World :=
  match o with
  | SetMetadata m => set_metadata m w
  | SetLanguage l => set_language l w
  | ReadTextBuffer => (textBuffer w).2
  | GetValue => (getValue w).2
  | GetHashValue => (getHashValue w).2
  | GetTextLength => (getTextLength w).2
  | GetFullModelRange => (getFullModelRange w).2
  | GetEvaluatedMetadata d => (getEvaluatedMetadata d w).2
  | CallerArray r splices => with_arrays (<[r := splices]> (arrays w)) w
  | SpliceOutputs r => spliceNotebookCellOutputs r w
  | Edit newLines => applyEdits newLines w
  | Dispose => dispose w
  end.

Definition run (ops : list Op) (w : World) : World := fold_left step ops w.

End Model.

(** ** Output splicing against the pre-batch list *)

(** Following the spec's words ("each splice's index computed against the
    list state before any splice in the batch was applied"): position [i] of
    the original list receives, in front of it, the records of every splice
    that starts at [i], and the original element at [i] stays unless some
    splice's deleted run covers it. *)
Definition inserted_at (i : nat) (batch : list NotebookCellOutputsSplice) : list ICellOutput :=
  flat_map
    (fun s => if splice_start s =? Z.of_nat i then splice_items s else [])
    batch.

Definition removed_at (i : nat) (batch : list NotebookCellOutputsSplice) : bool :=
  existsb
    (fun s => (splice_start s <=? Z.of_nat i)
              && (Z.of_nat i <? splice_start s + splice_count s))
    batch.

Fixpoint against_original_from (i : nat) (original : list ICellOutput)
    (batch : list NotebookCellOutputsSplice) : list ICellOutput :=
  match original with
  | [] => inserted_at i batch
  | x :: rest =>
      inserted_at i batch
        ++ (if removed_at i batch then [] else [x])
        ++ against_original_from (S i) rest batch
  end.

Definition spliceAgainstOriginal (original : list ICellOutput)
    (batch : list NotebookCellOutputsSplice) : list ICellOutput :=
  against_original_from 0 original batch.

(** Every splice of the batch addresses a run of the original list. *)
Definition within_original (len : Z) (batch : list NotebookCellOutputsSplice) : bool :=
  forallb
    (fun s => (0 <=? splice_start s) && (0 <=? splice_count s)
              && (splice_start s + splice_count s <=? len))
    batch.

(** The batch is submitted in ascending position order, each deleted run
    ending before the next splice starts, all within a list of length
    [len]. *)
Fixpoint ascending_from (lo : Z) (batch : list NotebookCellOutputsSplice) (len : Z) : bool :=
  match batch with
  | [] => true
  | s :: rest =>
      (lo <=? splice_start s) && (0 <=? splice_count s)
      && (splice_start s + splice_count s <=? len)
      && ascending_from (splice_start s + splice_count s) rest len
  end.

(** What the [forEach] of [spliceNotebookCellOutputs] does to the output
    list, as a function of the submitted batch. *)
Definition applyReversed (original : list ICellOutput)
    (batch : list NotebookCellOutputsSplice) : list ICellOutput :=
  foldr
    (fun s acc => JsArray.splice acc (splice_start s) (splice_count s) (splice_items s))
    original batch.

(** ** Reading a bound buffer *)

(** What [getFullModelRange] and [getValue] return for a given buffer. *)
Definition fullRangeOf (b : TextBuffer) : Range :=
  mkRange 1 1 (Buffer.getLineCount b)
    (Buffer.getLineLength b (Buffer.getLineCount b) + 1).

Definition valueOf (b : TextBuffer) : string :=
  if String.eqb (Buffer.getEOL b) Buffer.newline
  then Buffer.getValueInRange b (fullRangeOf b) PreferLF
  else Buffer.getValueInRange b (fullRangeOf b) PreferCRLF.

(** The buffer the getter builds in state [w], and what the store keeps
    for it. *)
Definition builtBuffer (bufferFactory_create : string -> list string * EndOfLine)
    (w : World) : TextBuffer :=
  mkBuffer (allocated w)
    (bufferFactory_create (_source (cell w))).1
    (bufferFactory_create (_source (cell w))).2 false 1.

Definition storeWith (id : nat) (s : DisposableStore) : DisposableStore :=
  if isDisposed s then s
  else mkStore false (toDispose s ++ [BufferHandle id; ContentSubscription id]).

(** ** Counting effects *)

Definition isBufferBuilt (e : Effect) : bool :=
  match e with BufferBuilt _ _ => true | _ => false end.

Definition isListenerAttached (e : Effect) : bool :=
  match e with ListenerAttached _ => true | _ => false end.

Definition constructions (w : World) : nat :=
  length (List.filter isBufferBuilt (effects w)).

Definition subscriptions (w : World) : nat :=
  length (List.filter isListenerAttached (effects w)).

(** The binding invariant: the getter has built at most one buffer and
    attached one listener for it, and none while the cell has no buffer. *)
Definition builtOnce (w : World) : Prop :=
  (constructions w <= 1)%nat
  /\ subscriptions w = constructions w
  /\ (_textBuffer (cell w) = None -> constructions w = 0%nat).

(** The bound buffer, if any, carries exactly one listener of the cell. *)
Definition listening (w : World) : Prop :=
  match _textBuffer (cell w) with
  | Some b => buf_listeners b = 1%nat
  | None => True
  end.

(** ** Metadata evaluation, in the spec's words *)

(** "preferring the cell-level value if present, falling back to the
    corresponding document-level default otherwise". *)
Definition preferCell (cellValue : option JsValue) (documentDefault : bool) : JsValue :=
  match cellValue with
  | None | Some JsUndefined | Some JsNull => JsBool documentDefault
  | Some v => v
  end.

(** ** The hash cache *)

Section HashCache.

Variable hash : HashArg -> Z.
Variable bufferFactory_create : string -> list string * EndOfLine.

(** The text [getValue] returns in state [w]. *)
Definition currentValue (w : World) : string :=
  valueOf (textBuffer bufferFactory_create w).1.

(** The hash of the current language, text value and outputs (or the empty
    array), assembled as [getHashValue] assembles it. *)
Definition freshHash (w : World) : Z :=
  hash (hashInput hash (_language (cell w)) (currentValue w) (cell w)).

(** The cache is empty or holds the hash of the current inputs. *)
Definition cacheFresh (w : World) : bool :=
  match _hash (cell w) with
  | None => true
  | Some h => h =? freshHash w
  end.

(** In the spec's words: the hash of (language, current text value,
    metadata filtered by the transient keys, outputs unless
    transient-outputs is set). *)
Definition specifiedHashInput (w : World) : HashArg :=
  AArray [ ANumber (hash (AString (_language (cell w))));
           ANumber (hash (AString (currentValue w)));
           AObject (_getPersisentMetadata (cell w));
           if transientOutputs (transientOptions (cell w))
           then AArray []
           else AArray (AOutput <$> _outputs (cell w)) ].

Definition cacheAsSpecified (w : World) : bool :=
  match _hash (cell w) with
  | None => true
  | Some h => h =? hash (specifiedHashInput w)
  end.

(** The calls that leave the cell live and its output list alone. *)
Definition keepsCache (o : Op) : bool :=
  match o with
  | SpliceOutputs _ | Dispose => false
  | _ => true
  end.

End HashCache.

(** ** Sample instances *)

Module Sample.

(** A hash that adds up string lengths, numbers and the number of
    output records; functions and plain objects count for nothing. *)
Fixpoint sumHash (a : HashArg) : Z :=
  match a with
  | AString s => Z.of_nat (String.length s)
  | ANumber n => n
  | AOutput _ => 1
  | AArray xs => fold_right (fun x acc => sumHash x + acc) 0 xs
  | AMethod _ | AObject _ => 0
  end.

(** A factory that makes a one-line buffer of any source. *)
Definition oneLine (source : string) : list string * EndOfLine := ([source], LF).

(** A generator that hands out "a", "aa", "aaa", ... *)
Definition nextId (n : nat) : string * nat :=
  (String.concat "" (replicate (S n) "a"), S n).

Definition outA : ICellOutput := mkOutput [mkItem "text/plain" "A"] "id-A".
Definition outA' : ICellOutput := mkOutput [mkItem "text/plain" "A2"] "id-A2".
Definition outB : ICellOutput := mkOutput [mkItem "text/html" "B"] "id-B".
Definition x0 : ICellOutput := mkOutput [mkItem "text/plain" "zero"] "id-0".
Definition x1 : ICellOutput := mkOutput [mkItem "text/plain" "one"] "id-1".
Definition x2 : ICellOutput := mkOutput [mkItem "text/plain" "two"] "id-2".

Definition noTransient : TransientOptions := mkTransient ∅ false.

(** A code cell with three outputs and no metadata. *)
Definition cell3 : NotebookCellTextModel :=
  construct "cell:1" 1 "print(1)" "python" Code [x0; x1; x2] None noTransient.

(** The same cell with the caller's array [batch] at reference 0. *)
Definition world3 (batch : list NotebookCellOutputsSplice) : World :=
  with_arrays {[ 0%nat := batch ]} (boot cell3).

(** The batch of the spec's example, and the same two splices submitted
    in descending position order. *)
Definition ascendingBatch : list NotebookCellOutputsSplice :=
  [ (0, 1, [outA]); (2, 0, [outB]) ].

Definition descendingBatch : list NotebookCellOutputsSplice :=
  [ (2, 0, [outB]); (0, 1, [outA; outA']) ].

End Sample.

(** ** Notifications and calls *)

(** The change notification a call fires itself. *)
Definition announced (w : World) (o : Op) : list Effect :=
  match o with
  | SetMetadata _ => [MetadataChanged]
  | SetLanguage l => [LanguageChanged l]
  | SpliceOutputs r => [OutputsChanged r (rev (deref r w))]
  | _ => []
  end.

Definition isMetadataChanged (e : Effect) : bool :=
  match e with MetadataChanged => true | _ => false end.

Definition isLanguageChanged (e : Effect) : bool :=
  match e with LanguageChanged _ => true | _ => false end.

Definition isOutputsChanged (e : Effect) : bool :=
  match e with OutputsChanged _ _ => true | _ => false end.

Definition isContentChanged (e : Effect) : bool :=
  match e with ContentChanged => true | _ => false end.

Definition isSetMetadata (o : Op) : bool :=
  match o with SetMetadata _ => true | _ => false end.

Definition isSetLanguage (o : Op) : bool :=
  match o with SetLanguage _ => true | _ => false end.

Definition isSpliceOutputs (o : Op) : bool :=
  match o with SpliceOutputs _ => true | _ => false end.

Definition isEdit (o : Op) : bool :=
  match o with Edit _ => true | _ => false end.

(** Every call but [dispose]. *)
Definition keepsLive (o : Op) : bool :=
  match o with Dispose => false | _ => true end.

(** What the store of a live cell keeps: nothing before the buffer is
    built, then the buffer's handle and the listener's subscription. *)
Definition registeredFor (w : World) : Prop :=
  isDisposed (_store (cell w)) = false
  /\ toDispose (_store (cell w))
     = match _textBuffer (cell w) with
       | Some b => [BufferHandle (buf_id b); ContentSubscription (buf_id b)]
       | None => []
       end.

(** The content-changed notifications the buffer's listeners relay when
    a call edits the buffer. *)
Definition relayed (bufferFactory_create : string -> list string * EndOfLine)
    (w : World) (o : Op) : list Effect :=
  match o with
  | Edit _ =>
      replicate (buf_listeners (textBuffer bufferFactory_create w).1) ContentChanged
  | _ => []
  end.

(** A predicate on effects that holds of none of the buffer's own life
    cycle. *)
Definition overChanges (p : Effect -> bool) : Prop :=
  (forall i s, p (BufferBuilt i s) = false)
  /\ (forall i, p (ListenerAttached i) = false)
  /\ (forall i, p (PlaceholderBuilt i) = false)
  /\ (forall d, p (Released d) = false).

(** ** Batches and generators *)

(** Records inserted minus records deleted, over a batch. *)
Definition batchGrowth (batch : list NotebookCellOutputsSplice) : Z :=
  foldr (fun s acc => Z.of_nat (length (splice_items s)) - splice_count s + acc)
    0 batch.

(** A splice that deletes nothing and inserts nothing. *)
Definition isNoop (s : NotebookCellOutputsSplice) : bool :=
  (splice_count s <=? 0) && bool_decide (splice_items s = []).

(** The state of the identifier generator after [n] draws. *)
Fixpoint advance {UuidSource : Type} (generateUuid : UuidSource -> string * UuidSource)
    (n : nat) (g : UuidSource) : UuidSource :=
  match n with
  | O => g
  | S n' => advance generateUuid n' (generateUuid g).2
  end.

(** The keys of the record [cloneMetadata] returns. *)
Definition clonedKeys : gset string :=
  {[ "editable"; "breakpointMargin"; "hasExecutionOrder";
     "inputCollapsed"; "outputCollapsed"; "custom" ]}.

(** * Properties *)

(** ** Reverse application and the reading against the original list *)

Section SpliceLemmas.

Implicit Types (batch : list NotebookCellOutputsSplice) (l : list ICellOutput).

Lemma against_original_nil i l : against_original_from i l [] = l.
Proof.
  revert i; induction l as [|x l IH]; intros i; simpl; [done|].
  by rewrite IH.
Qed.

Lemma inserted_at_cons i s batch :
  inserted_at i (s :: batch)
  = (if splice_start s =? Z.of_nat i then splice_items s else [])
      ++ inserted_at i batch.
Proof. reflexivity. Qed.

Lemma removed_at_cons i s batch :
  removed_at i (s :: batch)
  = (splice_start s <=? Z.of_nat i)
      && (Z.of_nat i <? splice_start s + splice_count s)
    || removed_at i batch.
Proof. reflexivity. Qed.

Lemma inserted_at_later i batch :
  Forall (fun s => Z.of_nat i < splice_start s) batch -> inserted_at i batch = [].
Proof.
  induction 1 as [|s batch Hs _ IH]; [done|].
  rewrite inserted_at_cons, IH.
  destruct (Z.eqb_spec (splice_start s) (Z.of_nat i)); [lia|done].
Qed.

Lemma removed_at_later i batch :
  Forall (fun s => Z.of_nat i < splice_start s) batch -> removed_at i batch = false.
Proof.
  induction 1 as [|s batch Hs _ IH]; [done|].
  rewrite removed_at_cons, IH.
  destruct (Z.leb_spec (splice_start s) (Z.of_nat i)); [lia|done].
Qed.

(** Positions in front of every splice are copied. *)
Lemma against_original_prefix k : forall l i batch,
  (k <= length l)%nat ->
  Forall (fun s => Z.of_nat (i + k) <= splice_start s) batch ->
  against_original_from i l batch
  = take k l ++ against_original_from (i + k) (drop k l) batch.
Proof.
  induction k as [|k IH]; intros l i batch Hk Hall.
  - simpl. by rewrite Nat.add_0_r.
  - destruct l as [|x l]; simpl in Hk; [lia|].
    cbn [against_original_from take drop].
    assert (Hlater : Forall (fun s => Z.of_nat i < splice_start s) batch).
    { eapply Forall_impl; [exact Hall|]. simpl. intros s Hs. lia. }
    rewrite (inserted_at_later _ _ Hlater), (removed_at_later _ _ Hlater).
    simpl. f_equal.
    rewrite (IH l (S i) batch); [|lia|].
    + by replace (S i + k)%nat with (i + S k)%nat by lia.
    + eapply Forall_impl; [exact Hall|]. simpl. intros s Hs. lia.
Qed.

(** A splice that lies wholly in front of position [i] no longer matters. *)
Lemma against_original_past s batch : forall l i,
  splice_start s < Z.of_nat i ->
  splice_start s + splice_count s <= Z.of_nat i ->
  against_original_from i l (s :: batch) = against_original_from i l batch.
Proof.
  assert (Hhead : forall i, splice_start s < Z.of_nat i ->
            splice_start s + splice_count s <= Z.of_nat i ->
            inserted_at i (s :: batch) = inserted_at i batch
            /\ removed_at i (s :: batch) = removed_at i batch).
  { intros i H1 H2. rewrite inserted_at_cons, removed_at_cons.
    destruct (Z.eqb_spec (splice_start s) (Z.of_nat i)); [lia|].
    destruct (Z.ltb_spec (Z.of_nat i) (splice_start s + splice_count s)); [lia|].
    by rewrite andb_false_r. }
  induction l as [|x l IH]; intros i H1 H2; cbn [against_original_from].
  - by destruct (Hhead i H1 H2) as [-> _].
  - destruct (Hhead i H1 H2) as [-> ->].
    rewrite IH; [done|lia|lia].
Qed.

(** Inside the deleted run of the first splice nothing is kept. *)
Lemma against_original_run s batch n : forall l i,
  splice_start s < Z.of_nat i ->
  Z.of_nat (i + n) = splice_start s + splice_count s ->
  (n <= length l)%nat ->
  Forall (fun t => splice_start s + splice_count s <= splice_start t) batch ->
  against_original_from i l (s :: batch)
  = against_original_from (i + n) (drop n l) batch.
Proof.
  induction n as [|n IH]; intros l i Hi Hend Hlen Hall.
  - simpl. rewrite Nat.add_0_r in *. apply against_original_past; lia.
  - destruct l as [|x l]; simpl in Hlen; [lia|].
    assert (Hlater : Forall (fun t => Z.of_nat i < splice_start t) batch).
    { eapply Forall_impl; [exact Hall|]. simpl. intros t Ht. lia. }
    cbn [against_original_from]. rewrite inserted_at_cons, removed_at_cons.
    rewrite (inserted_at_later _ _ Hlater).
    destruct (Z.eqb_spec (splice_start s) (Z.of_nat i)); [lia|].
    destruct (Z.leb_spec (splice_start s) (Z.of_nat i)); [|lia].
    destruct (Z.ltb_spec (Z.of_nat i) (splice_start s + splice_count s)); [|lia].
    simpl.
    rewrite (IH l (S i)); [|lia|lia|lia|done].
    by replace (S i + n)%nat with (i + S n)%nat by lia.
Qed.

(** At its own start the first splice puts its records and drops its run. *)
Lemma against_original_here s batch l i :
  Z.of_nat i = splice_start s ->
  0 <= splice_count s ->
  (Z.to_nat (splice_count s) <= length l)%nat ->
  Forall (fun t => splice_start s + splice_count s <= splice_start t) batch ->
  against_original_from i l (s :: batch)
  = splice_items s
      ++ against_original_from (i + Z.to_nat (splice_count s))
           (drop (Z.to_nat (splice_count s)) l) batch.
Proof.
  intros Hi Hc Hlen Hall.
  destruct (Z.to_nat (splice_count s)) as [|d] eqn:Hd.
  - assert (splice_count s = 0) as Hz by lia.
    rewrite Nat.add_0_r.
    destruct l as [|x l]; cbn [against_original_from drop].
    + rewrite inserted_at_cons.
      by destruct (Z.eqb_spec (splice_start s) (Z.of_nat i)); [|lia].
    + rewrite inserted_at_cons, removed_at_cons.
      destruct (Z.eqb_spec (splice_start s) (Z.of_nat i)); [|lia].
      destruct (Z.ltb_spec (Z.of_nat i) (splice_start s + splice_count s)); [lia|].
      rewrite andb_false_r. simpl.
      rewrite against_original_past; [|lia|lia].
      by rewrite <- app_assoc.
  - destruct l as [|x l]; simpl in Hlen; [lia|].
    assert (Hlater : Forall (fun t => Z.of_nat i < splice_start t) batch).
    { eapply Forall_impl; [exact Hall|]. simpl. intros t Ht. lia. }
    cbn [against_original_from]. rewrite inserted_at_cons, removed_at_cons.
    rewrite (inserted_at_later _ _ Hlater).
    destruct (Z.eqb_spec (splice_start s) (Z.of_nat i)); [|lia].
    destruct (Z.leb_spec (splice_start s) (Z.of_nat i)); [|lia].
    destruct (Z.ltb_spec (Z.of_nat i) (splice_start s + splice_count s)); [|lia].
    simpl. rewrite app_nil_r. f_equal.
    rewrite (against_original_run s batch d l (S i)); [|lia|lia|lia|done].
    by replace (S i + d)%nat with (i + S d)%nat by lia.
Qed.

Lemma ascending_from_starts batch : forall lo len,
  ascending_from lo batch len = true ->
  Forall (fun s => lo <= splice_start s) batch.
Proof.
  induction batch as [|s batch IH]; intros lo len H; [constructor|].
  simpl in H. repeat (apply andb_prop in H as [H ?]).
  constructor; [lia|].
  eapply Forall_impl; [eapply IH; eassumption|]. simpl. intros t Ht. lia.
Qed.

(** The reversed application agrees with the reading against the original
    list, for a batch in ascending order. *)
Lemma applyReversed_ascending batch : forall lo l,
  0 <= lo ->
  ascending_from lo batch (Z.of_nat (length l)) = true ->
  applyReversed l batch
  = take (Z.to_nat lo) l
      ++ against_original_from (Z.to_nat lo) (drop (Z.to_nat lo) l) batch.
Proof.
  induction batch as [|s batch IH]; intros lo l Hlo Hasc.
  - simpl. by rewrite against_original_nil, take_drop.
  - pose proof (ascending_from_starts _ _ _ Hasc) as Hstarts.
    simpl in Hasc. repeat (apply andb_prop in Hasc as [Hasc ?]).
    pose proof (ascending_from_starts _ _ _ H) as Hrest.
    assert (Hs : lo <= splice_start s) by lia.
    assert (Hc : 0 <= splice_count s) by lia.
    assert (He : splice_start s + splice_count s <= Z.of_nat (length l)) by lia.
    simpl. rewrite (IH (splice_start s + splice_count s) l); [|lia|done].
    set (a := Z.to_nat (splice_start s)).
    set (d := Z.to_nat (splice_count s)).
    replace (Z.to_nat (splice_start s + splice_count s)) with (a + d)%nat by lia.
    set (tl := against_original_from (a + d) (drop (a + d) l) batch).
    assert (Hlen : length (take (a + d) l) = (a + d)%nat)
      by (rewrite length_take; lia).
    unfold JsArray.splice.
    rewrite length_app, Hlen.
    destruct (Z.ltb_spec (splice_start s) 0); [lia|].
    rewrite Z.min_l by lia. rewrite Z.max_l by lia. rewrite Z.min_l by lia.
    fold a. replace (Z.to_nat (splice_start s + splice_count s)) with (a + d)%nat by lia.
    rewrite take_app_le by lia.
    rewrite take_take. replace (a `min` (a + d))%nat with a by lia.
    rewrite drop_app_length' by done.
    (* the reading against the original list *)
    rewrite (against_original_prefix (a - Z.to_nat lo) (drop (Z.to_nat lo) l)
               (Z.to_nat lo) (s :: batch)).
    + rewrite (app_assoc (take (Z.to_nat lo) l)), take_take_drop, drop_drop.
      replace (Z.to_nat lo + (a - Z.to_nat lo))%nat with a by lia.
      rewrite (against_original_here s batch (drop a l) a).
      * fold d. by rewrite drop_drop.
      * lia.
      * done.
      * fold d. rewrite length_drop. lia.
      * eapply Forall_impl; [exact Hrest|]. simpl. intros t Ht. lia.
    + rewrite length_drop. lia.
    + constructor; [lia|].
      eapply Forall_impl; [exact Hrest|]. simpl. intros t Ht. lia.
Qed.

End SpliceLemmas.

(** ** Output splicing: what the call does *)

Section SpliceCall.

Implicit Types (w : World) (batch : list NotebookCellOutputsSplice).

(** The [forEach] touches nothing but the output list. *)
Lemma forEach_splice_outputs batch : forall w,
  fold_left
    (fun acc splice =>
       on_cell (with_outputs
                  (JsArray.splice (_outputs (cell acc))
                     (splice_start splice) (splice_count splice)
                     (splice_items splice))) acc)
    batch w
  = on_cell
      (with_outputs
         (fold_left
            (fun acc s =>
               JsArray.splice acc (splice_start s) (splice_count s) (splice_items s))
            batch (_outputs (cell w)))) w.
Proof.
  induction batch as [|s batch IH]; intros w.
  - by destruct w as [[] ? ? ?].
  - cbn [fold_left]. by rewrite IH.
Qed.

Lemma fold_left_reversed {A B} (f : A -> B -> A) (l : list B) (i : A) :
  fold_left f (rev l) i = foldr (fun y x => f x y) i l.
Proof.
  induction l as [|y l IH]; [done|].
  cbn [rev foldr]. by rewrite fold_left_app, IH.
Qed.

Lemma deref_lookup r w batch : arrays w !! r = Some batch -> deref r w = batch.
Proof. unfold deref. by intros ->. Qed.

Lemma deref_on_cell r f w : deref r (on_cell f w) = deref r w.
Proof. reflexivity. Qed.

Lemma deref_reversed r w :
  deref r (with_arrays (<[r := rev (deref r w)]> (arrays w)) w) = rev (deref r w).
Proof. unfold deref at 1. simpl. by rewrite lookup_insert_eq. Qed.

(** The call, written out. *)
Lemma spliceNotebookCellOutputs_unfold r w :
  spliceNotebookCellOutputs r w
  = emit (OutputsChanged r (rev (deref r w)))
      (on_cell (with_outputs (applyReversed (_outputs (cell w)) (deref r w)))
         (with_arrays (<[r := rev (deref r w)]> (arrays w)) w)).
Proof.
  unfold spliceNotebookCellOutputs.
  rewrite deref_reversed, forEach_splice_outputs.
  rewrite deref_on_cell, deref_reversed, fold_left_reversed.
  reflexivity.
Qed.

Lemma outputs_after_splice r w :
  _outputs (cell (spliceNotebookCellOutputs r w))
  = applyReversed (_outputs (cell w)) (deref r w).
Proof. by rewrite spliceNotebookCellOutputs_unfold. Qed.

Lemma hash_after_splice r w :
  _hash (cell (spliceNotebookCellOutputs r w)) = _hash (cell w).
Proof. by rewrite spliceNotebookCellOutputs_unfold. Qed.

End SpliceCall.

(** C1 (as amended). A call of [spliceNotebookCellOutputs] adds exactly one
    entry to the history of effects, an outputs-changed notification, and
    what the notification carries is the caller's array as it is by then:
    the submitted splices in reverse order. *)
Theorem splice_fires_once_reversed (r : nat) (w : World)
    (batch : list NotebookCellOutputsSplice) :
  arrays w !! r = Some batch ->
  effects (spliceNotebookCellOutputs r w)
  = effects w ++ [OutputsChanged r (rev batch)].
Proof.
  intros Hr. rewrite spliceNotebookCellOutputs_unfold.
  by rewrite (deref_lookup _ _ _ Hr).
Qed.

Lemma splice_fires_once_reversed_witness :
  effects (spliceNotebookCellOutputs 0 (Sample.world3 Sample.ascendingBatch))
  = [OutputsChanged 0 [ (2, 0, [Sample.outB]); (0, 1, [Sample.outA]) ]].
Proof.
  apply (splice_fires_once_reversed 0 (Sample.world3 Sample.ascendingBatch)
           Sample.ascendingBatch).
  reflexivity.
Defined.

(** C1 as stated fails: for the batch [(0,1,[A]); (2,0,[B])] the
    notification does not carry the batch in the order submitted. *)
Lemma splice_payload_not_as_submitted :
  effects (spliceNotebookCellOutputs 0 (Sample.world3 Sample.ascendingBatch))
  <> effects (Sample.world3 Sample.ascendingBatch)
       ++ [OutputsChanged 0 Sample.ascendingBatch].
Proof.
  rewrite spliceNotebookCellOutputs_unfold.
  intros H. apply app_inv_head in H. discriminate H.
Qed.

(** C3 (as amended). When the batch is submitted in ascending position
    order, each deleted run ending before the next splice starts and all of
    them within the output list, the call leaves the output list as read
    against the list before the batch. *)
Theorem splice_ascending_against_original (r : nat) (w : World)
    (batch : list NotebookCellOutputsSplice) :
  arrays w !! r = Some batch ->
  ascending_from 0 batch (Z.of_nat (length (_outputs (cell w)))) = true ->
  _outputs (cell (spliceNotebookCellOutputs r w))
  = spliceAgainstOriginal (_outputs (cell w)) batch.
Proof.
  intros Hr Hasc.
  rewrite outputs_after_splice, (deref_lookup _ _ _ Hr).
  by rewrite (applyReversed_ascending batch 0 _ (Z.le_refl 0) Hasc).
Qed.

(** The example of the spec: [(0,1,[A]); (2,0,[B])] on [x0; x1; x2]. *)
Lemma splice_ascending_against_original_witness :
  _outputs (cell (spliceNotebookCellOutputs 0 (Sample.world3 Sample.ascendingBatch)))
  = [Sample.outA; Sample.x1; Sample.outB; Sample.x2].
Proof.
  rewrite (splice_ascending_against_original 0
             (Sample.world3 Sample.ascendingBatch) Sample.ascendingBatch).
  - reflexivity.
  - reflexivity.
  - reflexivity.
Defined.

(** C3 as stated fails: both splices of [(2,0,[B]); (0,1,[A; A'])] address
    the list [x0; x1; x2] as it is before the batch, yet the call puts [B]
    in front of [x1] where the reading against that list has it in front of
    [x2]. *)
Lemma splice_descending_differs :
  within_original 3 Sample.descendingBatch = true
  /\ _outputs (cell (spliceNotebookCellOutputs 0 (Sample.world3 Sample.descendingBatch)))
     = [Sample.outA; Sample.outA'; Sample.outB; Sample.x1; Sample.x2]
  /\ spliceAgainstOriginal [Sample.x0; Sample.x1; Sample.x2] Sample.descendingBatch
     = [Sample.outA; Sample.outA'; Sample.x1; Sample.outB; Sample.x2]
  /\ _outputs (cell (spliceNotebookCellOutputs 0 (Sample.world3 Sample.descendingBatch)))
     <> spliceAgainstOriginal
          (_outputs (cell (Sample.world3 Sample.descendingBatch)))
          Sample.descendingBatch.
Proof.
  repeat split; try reflexivity.
  rewrite outputs_after_splice. vm_compute. discriminate.
Qed.

(** C10. The array the caller passes is reversed in place: after the call
    it holds the submitted splices in reverse order, the notification
    carries that same array with those contents, and no other array of the
    caller is touched. *)
Theorem splice_reverses_argument (r : nat) (w : World)
    (batch : list NotebookCellOutputsSplice) :
  arrays w !! r = Some batch ->
  arrays (spliceNotebookCellOutputs r w) !! r = Some (rev batch)
  /\ delete r (arrays (spliceNotebookCellOutputs r w)) = delete r (arrays w)
  /\ last (effects (spliceNotebookCellOutputs r w))
     = Some (OutputsChanged r (deref r (spliceNotebookCellOutputs r w))).
Proof.
  intros Hr. rewrite spliceNotebookCellOutputs_unfold.
  rewrite (deref_lookup _ _ _ Hr). simpl.
  split; [by rewrite lookup_insert_eq|].
  split; [by rewrite delete_insert_eq|].
  rewrite last_snoc. unfold deref. simpl. by rewrite lookup_insert_eq.
Qed.

Lemma splice_reverses_argument_witness :
  arrays (spliceNotebookCellOutputs 0 (Sample.world3 Sample.ascendingBatch)) !! 0%nat
  = Some [ (2, 0, [Sample.outB]); (0, 1, [Sample.outA]) ].
Proof.
  apply (splice_reverses_argument 0 (Sample.world3 Sample.ascendingBatch)
           Sample.ascendingBatch).
  reflexivity.
Defined.

(** ** The lazy buffer binding *)

Section Binding.

Variable hash : HashArg -> Z.
Variable bufferFactory_create : string -> list string * EndOfLine.

Local Abbreviation textBuffer := (textBuffer bufferFactory_create).
Local Abbreviation builtBuffer := (builtBuffer bufferFactory_create).
Local Abbreviation getValue := (getValue bufferFactory_create).
Local Abbreviation getFullModelRange := (getFullModelRange bufferFactory_create).
Local Abbreviation getTextLength := (getTextLength bufferFactory_create).
Local Abbreviation getHashValue := (getHashValue hash bufferFactory_create).
Local Abbreviation applyEdits := (applyEdits bufferFactory_create).
Local Abbreviation step := (step hash bufferFactory_create).
Local Abbreviation run := (run hash bufferFactory_create).

Implicit Types (w : World) (b : TextBuffer).

Lemma textBuffer_bound w b :
  _textBuffer (cell w) = Some b -> textBuffer w = (b, w).
Proof. unfold textBuffer. by intros ->. Qed.

Lemma textBuffer_unbound w :
  _textBuffer (cell w) = None ->
  textBuffer w
  = (builtBuffer w,
     mkWorld
       (with_store (storeWith (allocated w) (_store (cell w)))
          (with_textBuffer (Some (builtBuffer w)) (cell w)))
       (arrays w)
       (effects w ++ [BufferBuilt (allocated w) (_source (cell w));
                      ListenerAttached (allocated w)])
       (S (allocated w))).
Proof.
  unfold textBuffer, builtBuffer. intros ->.
  destruct w as [[u h src lang k outs md tr tb hs [dis td]] a e n].
  simpl. destruct (bufferFactory_create src) as [lines eol].
  unfold _register, storeWith, on_cell, emit. simpl.
  destruct dis; simpl; rewrite <- !app_assoc; reflexivity.
Qed.

Lemma textBuffer_binds w :
  _textBuffer (cell (textBuffer w).2) = Some (textBuffer w).1.
Proof.
  destruct (_textBuffer (cell w)) as [b|] eqn:E.
  - by rewrite (textBuffer_bound _ _ E).
  - by rewrite (textBuffer_unbound _ E).
Qed.

Lemma textBuffer_again w :
  textBuffer (textBuffer w).2 = ((textBuffer w).1, (textBuffer w).2).
Proof. apply textBuffer_bound, textBuffer_binds. Qed.

Lemma getFullModelRange_eq w :
  getFullModelRange w = (fullRangeOf (textBuffer w).1, (textBuffer w).2).
Proof.
  unfold getFullModelRange.
  destruct (textBuffer w) as [b1 w1] eqn:E1.
  change w1 with (b1, w1).2. change b1 with (b1, w1).1 at 2. rewrite <- E1.
  by rewrite textBuffer_again, E1.
Qed.

Lemma getValue_eq w :
  getValue w = (valueOf (textBuffer w).1, (textBuffer w).2).
Proof.
  unfold getValue. rewrite getFullModelRange_eq.
  rewrite !textBuffer_again. simpl. unfold valueOf.
  by destruct (String.eqb _ _).
Qed.

Lemma getTextLength_eq w :
  getTextLength w = (Buffer.getLength (textBuffer w).1, (textBuffer w).2).
Proof.
  unfold getTextLength. by destruct (textBuffer w).
Qed.

Lemma getHashValue_cached w h :
  _hash (cell w) = Some h -> getHashValue w = (h, w).
Proof. unfold getHashValue. by intros ->. Qed.

Lemma getHashValue_empty w :
  _hash (cell w) = None ->
  getHashValue w
  = (hash (hashInput hash (_language (cell w)) (valueOf (textBuffer w).1)
             (cell (textBuffer w).2)),
     on_cell
       (with_hash
          (Some (hash (hashInput hash (_language (cell w))
                         (valueOf (textBuffer w).1) (cell (textBuffer w).2)))))
       (textBuffer w).2).
Proof.
  unfold getHashValue. intros ->. by rewrite getValue_eq.
Qed.

End Binding.

(** ** Emitters, listeners and disposal, written out *)

Section Effects.

Implicit Types (w : World) (e : Effect).

Lemma filter_emit (p : Effect -> bool) e w :
  List.filter p (effects (emit e w))
  = List.filter p (effects w) ++ (if p e then [e] else []).
Proof. unfold emit. simpl. by rewrite List.filter_app. Qed.

Lemma listeners_fire n : forall w,
  Nat.iter n contentListener w
  = mkWorld (if n is O then cell w else with_hash None (cell w))
      (arrays w) (effects w ++ replicate n ContentChanged) (allocated w).
Proof.
  induction n as [|n IH]; intros w.
  - destruct w. simpl. by rewrite app_nil_r.
  - rewrite Nat.iter_succ, IH. unfold contentListener, emit, on_cell. simpl.
    rewrite <- app_assoc.
    replace (replicate n ContentChanged ++ [ContentChanged])
      with (ContentChanged :: replicate n ContentChanged).
    + by destruct n.
    + clear. induction n as [|n IH]; [done|]. simpl. by rewrite <- IH.
Qed.

Lemma released_fold (ds : list Registered) : forall w,
  fold_left (fun acc d => emit (Released d) acc) ds w
  = mkWorld (cell w) (arrays w) (effects w ++ (Released <$> ds)) (allocated w).
Proof.
  induction ds as [|d ds IH]; intros w.
  - destruct w. simpl. by rewrite app_nil_r.
  - cbn [fold_left]. rewrite IH. unfold emit. simpl. by rewrite <- app_assoc.
Qed.

Lemma super_dispose_unfold w :
  super_dispose w
  = if isDisposed (_store (cell w)) then w
    else mkWorld (with_store (mkStore true []) (cell w)) (arrays w)
           (effects w ++ (Released <$> toDispose (_store (cell w))))
           (allocated w).
Proof.
  unfold super_dispose. destruct (isDisposed _); [done|].
  by rewrite released_fold.
Qed.

Lemma dispose_unfold w :
  dispose w
  = super_dispose
      (mkWorld (with_textBuffer (Some (Buffer.emptyDisposed (allocated w))) (cell w))
         (arrays w) (effects w ++ [PlaceholderBuilt (allocated w)])
         (S (allocated w))).
Proof. reflexivity. Qed.

Lemma filter_not_released (p : Effect -> bool) (ds : list Registered) :
  (forall d, p (Released d) = false) ->
  List.filter p (Released <$> ds) = [].
Proof.
  intros Hp. induction ds as [|d ds IH]; [done|].
  simpl. by rewrite Hp.
Qed.

Lemma filter_not_content (p : Effect -> bool) n :
  p ContentChanged = false ->
  List.filter p (replicate n ContentChanged) = [].
Proof.
  intros Hp. induction n as [|n IH]; [done|].
  simpl. by rewrite Hp.
Qed.

End Effects.

(** ** The buffer is built at most once *)

Section BuiltOnce.

Variable hash : HashArg -> Z.
Variable bufferFactory_create : string -> list string * EndOfLine.

Local Abbreviation textBuffer := (textBuffer bufferFactory_create).
Local Abbreviation builtBuffer := (builtBuffer bufferFactory_create).
Local Abbreviation getHashValue := (getHashValue hash bufferFactory_create).
Local Abbreviation applyEdits := (applyEdits bufferFactory_create).
Local Abbreviation step := (step hash bufferFactory_create).
Local Abbreviation run := (run hash bufferFactory_create).

Implicit Types (w : World) (o : Op).

Lemma builtOnce_steady w w' (es : list Effect) :
  builtOnce w ->
  effects w' = effects w ++ es ->
  List.filter isBufferBuilt es = [] ->
  List.filter isListenerAttached es = [] ->
  (_textBuffer (cell w') = None -> _textBuffer (cell w) = None) ->
  builtOnce w'.
Proof.
  intros (Hle & Heq & Hnone) He Hb Hl Hbound.
  unfold builtOnce, constructions, subscriptions in *.
  rewrite He, !List.filter_app, Hb, Hl, !app_nil_r.
  auto.
Qed.

Lemma builtOnce_textBuffer w : builtOnce w -> builtOnce (textBuffer w).2.
Proof.
  intros Hw. destruct (_textBuffer (cell w)) as [b|] eqn:E.
  - by rewrite (textBuffer_bound _ _ _ E).
  - rewrite (textBuffer_unbound _ _ E).
    destruct Hw as (Hle & Heq & Hnone). specialize (Hnone E).
    unfold builtOnce, constructions, subscriptions in *. simpl.
    rewrite !List.filter_app, !length_app. simpl.
    repeat split; [lia|lia|discriminate].
Qed.

Lemma builtOnce_step w o : builtOnce w -> builtOnce (step w o).
Proof.
  intros Hw. destruct o; unfold step.
  - (* set metadata *)
    by apply (builtOnce_steady w _ [MetadataChanged]).
  - by apply (builtOnce_steady w _ [LanguageChanged l]).
  - by apply builtOnce_textBuffer.
  - rewrite getValue_eq. by apply builtOnce_textBuffer.
  - destruct (_hash (cell w)) as [h|] eqn:E.
    + by rewrite (getHashValue_cached _ _ _ _ E).
    + rewrite (getHashValue_empty _ _ _ E). cbn [snd].
      apply (builtOnce_steady (textBuffer w).2 _ []);
        [by apply builtOnce_textBuffer|by rewrite app_nil_r|done..].
  - rewrite getTextLength_eq. by apply builtOnce_textBuffer.
  - rewrite getFullModelRange_eq. by apply builtOnce_textBuffer.
  - done.
  - apply (builtOnce_steady w _ []); [done|by rewrite app_nil_r|done..].
  - rewrite spliceNotebookCellOutputs_unfold.
    by apply (builtOnce_steady w _ [OutputsChanged r (rev (deref r w))]).
  - unfold applyEdits.
    destruct (textBuffer w) as [b w1] eqn:E.
    assert (Hw1 : builtOnce w1).
    { change w1 with (b, w1).2. rewrite <- E. by apply builtOnce_textBuffer. }
    rewrite listeners_fire.
    apply (builtOnce_steady w1 _ (replicate (buf_listeners b) ContentChanged));
      [done|done|by apply filter_not_content..|].
    simpl. by destruct (buf_listeners b).
  - rewrite dispose_unfold, super_dispose_unfold. simpl.
    destruct (isDisposed (_store (cell w))).
    + by apply (builtOnce_steady w _ [PlaceholderBuilt (allocated w)]).
    + apply (builtOnce_steady w _
               (PlaceholderBuilt (allocated w)
                  :: (Released <$> toDispose (_store (cell w)))));
        [done|by rewrite <- app_assoc|..|done].
      * simpl. by apply filter_not_released.
      * simpl. by apply filter_not_released.
Qed.

Lemma builtOnce_run (ops : list Op) : forall w,
  builtOnce w -> builtOnce (run ops w).
Proof.
  induction ops as [|o ops IH]; intros w Hw; [done|].
  apply IH. by apply builtOnce_step.
Qed.

Lemma builtOnce_boot (c : NotebookCellTextModel) : builtOnce (boot c).
Proof. unfold builtOnce, constructions, subscriptions. simpl. auto. Qed.

(** C5. Whatever calls a cell has received since its construction, the
    getter has built at most one buffer and attached at most one
    content-change listener.  An access while no buffer is bound builds
    the buffer from the raw source and attaches one listener; an access
    while a buffer is bound returns that buffer; and a further access
    returns the same buffer and changes nothing. *)
Theorem textBuffer_built_at_most_once
    (uri0 : string) (handle0 : Z) (source language : string) (kind : CellKind)
    (outs : list ICellOutput) (metadata : option (gmap string JsValue))
    (transient : TransientOptions) (ops : list Op) :
  let w := run ops (boot (construct uri0 handle0 source language kind outs
                            metadata transient)) in
  (constructions w <= 1)%nat
  /\ (subscriptions w <= 1)%nat
  /\ (textBuffer w).1
     = match _textBuffer (cell w) with
       | Some b => b
       | None => builtBuffer w
       end
  /\ effects (textBuffer w).2
     = effects w
         ++ match _textBuffer (cell w) with
            | Some _ => []
            | None => [BufferBuilt (allocated w) (_source (cell w));
                       ListenerAttached (allocated w)]
            end
  /\ (constructions (textBuffer w).2 <= 1)%nat
  /\ textBuffer (textBuffer w).2 = ((textBuffer w).1, (textBuffer w).2).
Proof.
  intros w.
  assert (Hw : builtOnce w) by apply builtOnce_run, builtOnce_boot.
  pose proof (builtOnce_textBuffer w Hw) as (Hle' & _ & _).
  destruct Hw as (Hle & Heq & _).
  repeat split; [done|lia| | |done|apply textBuffer_again].
  - destruct (_textBuffer (cell w)) as [b|] eqn:E.
    + by rewrite (textBuffer_bound _ _ _ E).
    + by rewrite (textBuffer_unbound _ _ E).
  - destruct (_textBuffer (cell w)) as [b|] eqn:E.
    + rewrite (textBuffer_bound _ _ _ E). simpl. by rewrite app_nil_r.
    + by rewrite (textBuffer_unbound _ _ E).
Qed.

End BuiltOnce.

(** ** Reads, disposal and the hash of a cell *)

Section Calls.

Variable hash : HashArg -> Z.
Variable bufferFactory_create : string -> list string * EndOfLine.

Local Abbreviation textBuffer := (textBuffer bufferFactory_create).
Local Abbreviation builtBuffer := (builtBuffer bufferFactory_create).
Local Abbreviation getTextLength := (getTextLength bufferFactory_create).
Local Abbreviation getHashValue := (getHashValue hash bufferFactory_create).
Local Abbreviation run := (run hash bufferFactory_create).

Implicit Types (w : World).

Lemma dispose_binds_placeholder w :
  _textBuffer (cell (dispose w)) = Some (Buffer.emptyDisposed (allocated w)).
Proof.
  rewrite dispose_unfold, super_dispose_unfold. simpl.
  by destruct (isDisposed (_store (cell w))).
Qed.

Lemma dispose_marks_store w : isDisposed (_store (cell (dispose w))) = true.
Proof.
  rewrite dispose_unfold, super_dispose_unfold. simpl.
  by destruct (isDisposed (_store (cell w))) eqn:E.
Qed.

Lemma dispose_allocates w : allocated (dispose w) = S (allocated w).
Proof.
  rewrite dispose_unfold, super_dispose_unfold. simpl.
  by destruct (isDisposed (_store (cell w))).
Qed.

(** C8. After [dispose], every access to the buffer finds the empty,
    already disposed placeholder and leaves the cell as it is, so
    [getTextLength] returns 0.  A second [dispose] runs to completion as
    well: it installs a fresh placeholder, releases nothing a second time,
    and [getTextLength] still returns 0. *)
Theorem dispose_leaves_empty_buffer (w : World) :
  textBuffer (dispose w) = (Buffer.emptyDisposed (allocated w), dispose w)
  /\ (getTextLength (dispose w)).1 = 0%nat
  /\ (getTextLength (dispose (dispose w))).1 = 0%nat
  /\ isDisposed (_store (cell (dispose (dispose w)))) = true
  /\ effects (dispose (dispose w))
     = effects (dispose w) ++ [PlaceholderBuilt (S (allocated w))].
Proof.
  assert (Hlen : forall w', (getTextLength (dispose w')).1 = 0%nat).
  { intros w'. rewrite getTextLength_eq.
    by rewrite (textBuffer_bound _ _ _ (dispose_binds_placeholder w')). }
  split; [apply textBuffer_bound, dispose_binds_placeholder|].
  split; [apply Hlen|].
  split; [apply Hlen|].
  split; [apply dispose_marks_store|].
  rewrite (dispose_unfold (dispose w)), super_dispose_unfold. simpl.
  by rewrite dispose_marks_store, dispose_allocates.
Qed.

(** Every key that persists is kept by the filter, with its value; every
    other key is dropped. *)
Lemma getPersisentMetadata_lookup (c : NotebookCellTextModel) (key : string) :
  _getPersisentMetadata c !! key
  = if persists (transientOptions c) key then _metadata c !! key else None.
Proof.
  unfold _getPersisentMetadata.
  destruct (persists (transientOptions c) key) eqn:E.
  - destruct (_metadata c !! key) as [v|] eqn:Ev.
    + by apply map_lookup_filter_Some.
    + apply map_lookup_filter_None. by left.
  - apply map_lookup_filter_None. right. intros v _. simpl. congruence.
Qed.

(** C2 fails on the code.  The array handed to [hash] holds the method
    [_getPersisentMetadata] itself, not the snapshot it would return, so the
    value [getHashValue] computes is the same whatever the metadata is. *)
Theorem getHashValue_ignores_metadata (w : World) (m1 m2 : gmap string JsValue) :
  (getHashValue (set_metadata m1 w)).1 = (getHashValue (set_metadata m2 w)).1.
Proof.
  rewrite !getHashValue_empty by reflexivity. cbn [fst].
  destruct (_textBuffer (cell w)) as [b|] eqn:E.
  - rewrite (textBuffer_bound _ (set_metadata m1 w) b) by exact E.
    by rewrite (textBuffer_bound _ (set_metadata m2 w) b) by exact E.
  - rewrite (textBuffer_unbound _ (set_metadata m1 w)) by exact E.
    by rewrite (textBuffer_unbound _ (set_metadata m2 w)) by exact E.
Qed.

End Calls.

(** The snapshots the filter returns for the two metadata records
    [{editable: true}] and [{editable: false}] differ, with no key marked
    transient. *)
Lemma persistent_metadata_differs :
  _getPersisentMetadata
    (with_metadata {[ "editable" := JsBool true ]} Sample.cell3)
  <> _getPersisentMetadata
       (with_metadata {[ "editable" := JsBool false ]} Sample.cell3).
Proof.
  intros H.
  assert (H' := f_equal (fun m => m !! "editable") H). simpl in H'.
  rewrite !getPersisentMetadata_lookup in H'. vm_compute in H'. discriminate H'.
Qed.

(** ** Metadata evaluation *)

(** C6. The evaluated metadata has, under "editable" and under
    "hasExecutionOrder", the cell's own value when the cell has one and the
    document default otherwise; every other key is as in the cell's
    metadata; and the call leaves the cell, its stored metadata included,
    as it was.  So with "editable" unset and a default of false the result
    is false, and with "editable" set to true it is true whatever the
    default. *)
Theorem getEvaluatedMetadata_prefers_cell
    (d : NotebookDocumentMetadata) (w : World) (m : gmap string JsValue) :
  (getEvaluatedMetadata d w).1 !! "editable"
  = Some (preferCell (_metadata (cell w) !! "editable") (cellEditable d))
  /\ (getEvaluatedMetadata d w).1 !! "hasExecutionOrder"
     = Some (preferCell (_metadata (cell w) !! "hasExecutionOrder")
               (cellHasExecutionOrder d))
  /\ delete "editable" (delete "hasExecutionOrder" (getEvaluatedMetadata d w).1)
     = delete "editable" (delete "hasExecutionOrder" (_metadata (cell w)))
  /\ (getEvaluatedMetadata d w).2 = w
  /\ (getEvaluatedMetadata (mkDocMeta false (cellHasExecutionOrder d))
        (set_metadata (delete "editable" m) w)).1 !! "editable"
     = Some (JsBool false)
  /\ (getEvaluatedMetadata d
        (set_metadata (<["editable" := JsBool true]> m) w)).1 !! "editable"
     = Some (JsBool true).
Proof.
  assert (Hp : forall (o : gmap string JsValue) k dflt,
            nullish (prop o k) (JsBool dflt) = preferCell (o !! k) dflt).
  { intros o k dflt. unfold prop.
    by destruct (o !! k) as [[]|]. }
  unfold getEvaluatedMetadata. cbn [fst snd].
  repeat split.
  - rewrite lookup_insert_ne by done. by rewrite lookup_insert_eq, Hp.
  - by rewrite lookup_insert_eq, Hp.
  - by rewrite delete_insert_eq, delete_delete, delete_insert_eq, delete_delete.
  - rewrite lookup_insert_ne by done. rewrite lookup_insert_eq, Hp. simpl.
    by rewrite lookup_delete_eq.
  - rewrite lookup_insert_ne by done. rewrite lookup_insert_eq, Hp. simpl.
    by rewrite lookup_insert_eq.
Qed.

(** ** Cloning *)

Section Cloning.

Variable bufferFactory_create : string -> list string * EndOfLine.
Variable UuidSource : Type.
Variable generateUuid : UuidSource -> string * UuidSource.

Local Abbreviation textBuffer := (textBuffer bufferFactory_create).
Local Abbreviation cloneOutputs := (cloneOutputs UuidSource generateUuid).
Local Abbreviation drawn := (drawn UuidSource generateUuid).
Local Abbreviation cloneNotebookCellTextModel :=
  (cloneNotebookCellTextModel bufferFactory_create UuidSource generateUuid).

Lemma textBuffer_keeps_outputs (w : World) :
  _outputs (cell (textBuffer w).2) = _outputs (cell w).
Proof.
  destruct (_textBuffer (cell w)) as [b|] eqn:E.
  - by rewrite (textBuffer_bound _ _ _ E).
  - by rewrite (textBuffer_unbound _ _ E).
Qed.

Lemma cloneOutputs_cons (o : ICellOutput) (os : list ICellOutput) (g : UuidSource) :
  cloneOutputs (o :: os) g
  = (mkOutput (outputs o) (generateUuid g).1
       :: (cloneOutputs os (generateUuid g).2).1,
     (cloneOutputs os (generateUuid g).2).2).
Proof.
  simpl. destruct (generateUuid g) as [id g1]. simpl.
  by destruct (cloneOutputs os g1).
Qed.

Lemma drawn_succ (n : nat) (g : UuidSource) :
  drawn (S n) g = (generateUuid g).1 :: drawn n (generateUuid g).2.
Proof. simpl. by destruct (generateUuid g). Qed.

Lemma cloneOutputs_content (os : list ICellOutput) : forall g,
  outputs <$> (cloneOutputs os g).1 = outputs <$> os.
Proof.
  induction os as [|o os IH]; intros g; [done|].
  rewrite cloneOutputs_cons. cbn [fst]. rewrite !fmap_cons, IH. done.
Qed.

Lemma cloneOutputs_ids (os : list ICellOutput) : forall g,
  outputId <$> (cloneOutputs os g).1 = drawn (length os) g.
Proof.
  induction os as [|o os IH]; intros g; [done|].
  rewrite cloneOutputs_cons. cbn [fst length].
  by rewrite drawn_succ, fmap_cons, IH.
Qed.


End Cloning.


(** ** The hash cache while the cell is live *)

Section Cache.

Variable hash : HashArg -> Z.
Variable bufferFactory_create : string -> list string * EndOfLine.

Local Abbreviation textBuffer := (textBuffer bufferFactory_create).
Local Abbreviation builtBuffer := (builtBuffer bufferFactory_create).
Local Abbreviation getHashValue := (getHashValue hash bufferFactory_create).
Local Abbreviation applyEdits := (applyEdits bufferFactory_create).
Local Abbreviation currentValue := (currentValue bufferFactory_create).
Local Abbreviation freshHash := (freshHash hash bufferFactory_create).
Local Abbreviation cacheFresh := (cacheFresh hash bufferFactory_create).
Local Abbreviation step := (step hash bufferFactory_create).
Local Abbreviation run := (run hash bufferFactory_create).

Implicit Types (w : World) (o : Op).

Lemma hashInput_ext (l v : string) (c c' : NotebookCellTextModel) :
  transientOptions c' = transientOptions c ->
  _outputs c' = _outputs c ->
  hashInput hash l v c' = hashInput hash l v c.
Proof. unfold hashInput. by intros -> ->. Qed.

(** The buffer an access returns depends on the bound buffer, the raw
    source and the allocation count only. *)
Lemma textBuffer_ext w w' :
  _textBuffer (cell w') = _textBuffer (cell w) ->
  _source (cell w') = _source (cell w) ->
  allocated w' = allocated w ->
  (textBuffer w').1 = (textBuffer w).1.
Proof.
  intros Hb Hs Ha. destruct (_textBuffer (cell w)) as [b|] eqn:E.
  - by rewrite (textBuffer_bound _ w' b), (textBuffer_bound _ w b).
  - rewrite (textBuffer_unbound _ w'), (textBuffer_unbound _ w) by done.
    unfold builtBuffer. simpl. by rewrite Hs, Ha.
Qed.

Lemma freshHash_ext w w' :
  _language (cell w') = _language (cell w) ->
  (textBuffer w').1 = (textBuffer w).1 ->
  transientOptions (cell w') = transientOptions (cell w) ->
  _outputs (cell w') = _outputs (cell w) ->
  freshHash w' = freshHash w.
Proof.
  intros Hl Hb Ht Ho. unfold freshHash, currentValue.
  by rewrite Hl, Hb, (hashInput_ext _ _ _ _ Ht Ho).
Qed.

(** An access to the buffer leaves everything the hash is made of. *)
Lemma textBuffer_frame w :
  _language (cell (textBuffer w).2) = _language (cell w)
  /\ transientOptions (cell (textBuffer w).2) = transientOptions (cell w)
  /\ _outputs (cell (textBuffer w).2) = _outputs (cell w)
  /\ _hash (cell (textBuffer w).2) = _hash (cell w).
Proof.
  destruct (_textBuffer (cell w)) as [b|] eqn:E.
  - by rewrite (textBuffer_bound _ _ _ E).
  - by rewrite (textBuffer_unbound _ _ E).
Qed.

Lemma freshHash_textBuffer w : freshHash (textBuffer w).2 = freshHash w.
Proof.
  destruct (textBuffer_frame w) as (Hl & Ht & Ho & _).
  apply freshHash_ext; [done| |done|done].
  by rewrite textBuffer_again.
Qed.

Lemma cacheFresh_textBuffer w : cacheFresh (textBuffer w).2 = cacheFresh w.
Proof.
  unfold cacheFresh.
  destruct (textBuffer_frame w) as (_ & _ & _ & ->).
  by rewrite freshHash_textBuffer.
Qed.

Lemma getHashValue_uncached w :
  _hash (cell w) = None -> (getHashValue w).1 = freshHash w.
Proof.
  intros E. rewrite (getHashValue_empty _ _ _ E). cbn [fst].
  unfold freshHash, currentValue.
  destruct (textBuffer_frame w) as (_ & Ht & Ho & _).
  by rewrite (hashInput_ext _ _ _ _ Ht Ho).
Qed.

Lemma listening_textBuffer w : listening w -> listening (textBuffer w).2.
Proof.
  unfold listening. rewrite textBuffer_binds.
  destruct (_textBuffer (cell w)) as [b|] eqn:E.
  - by rewrite (textBuffer_bound _ _ _ E).
  - by rewrite (textBuffer_unbound _ _ E).
Qed.

Lemma applyEdits_listening w (newLines : list string) :
  listening w ->
  applyEdits newLines w
  = contentListener
      (on_cell
         (with_textBuffer
            (Some (mkBuffer (buf_id (textBuffer w).1) newLines
                     (buf_eol (textBuffer w).1) (buf_disposed (textBuffer w).1) 1)))
         (textBuffer w).2).
Proof.
  intros Hw. apply listening_textBuffer in Hw.
  unfold listening in Hw. rewrite textBuffer_binds in Hw.
  unfold applyEdits.
  destruct (textBuffer w) as [b w1]. simpl in *. by rewrite Hw.
Qed.

Lemma live_step w o :
  keepsCache o = true ->
  listening w /\ cacheFresh w = true ->
  listening (step w o) /\ cacheFresh (step w o) = true.
Proof.
  intros Ho [Hl Hc]. destruct o; try discriminate Ho; unfold step.
  - done.
  - done.
  - split; [by apply listening_textBuffer|by rewrite cacheFresh_textBuffer].
  - rewrite getValue_eq. cbn [snd].
    split; [by apply listening_textBuffer|by rewrite cacheFresh_textBuffer].
  - destruct (_hash (cell w)) as [h|] eqn:E.
    + by rewrite (getHashValue_cached _ _ _ _ E).
    + rewrite (getHashValue_empty _ _ _ E). cbn [snd].
      split; [by apply listening_textBuffer|].
      unfold cacheFresh. cbn [cell on_cell _hash with_hash].
      apply Z.eqb_eq.
      unfold freshHash, currentValue.
      destruct (textBuffer_frame w) as (Hlang & _ & _ & _).
      cbn [cell on_cell _language with_hash].
      rewrite Hlang. f_equal.
      rewrite (textBuffer_ext (textBuffer w).2 (on_cell (with_hash _) (textBuffer w).2))
        by done.
      rewrite textBuffer_again. cbn [fst].
      by apply hashInput_ext.
  - rewrite getTextLength_eq. cbn [snd].
    split; [by apply listening_textBuffer|by rewrite cacheFresh_textBuffer].
  - rewrite getFullModelRange_eq. cbn [snd].
    split; [by apply listening_textBuffer|by rewrite cacheFresh_textBuffer].
  - done.
  - split; [done|].
    unfold cacheFresh in *. simpl.
    destruct (_hash (cell w)) as [h|]; [|done].
    rewrite (freshHash_ext w (with_arrays _ w)); [done|done| |done|done].
    by apply textBuffer_ext.
  - rewrite (applyEdits_listening _ _ Hl). split; [|done].
    unfold listening. by simpl.
Qed.
Lemma live_run (ops : list Op) : forall w,
  forallb keepsCache ops = true ->
  listening w /\ cacheFresh w = true ->
  listening (run ops w) /\ cacheFresh (run ops w) = true.
Proof.
  induction ops as [|o ops IH]; intros w Hops Hw; [done|].
  simpl in Hops. apply andb_prop in Hops as [Ho Hops].
  apply (IH _ Hops). by apply live_step.
Qed.

(** C4 (as amended). In every state a cell reaches from its construction
    by language sets, metadata sets, content edits through the buffer and
    reads (no output splice, no disposal), the cached hash is null or
    equals the hash of the current language, text value and outputs (or the
    empty array when outputs are transient).  Each of the three mutations
    sets the cache to null, and the next [getHashValue] returns the hash of
    the inputs as they then are. *)
Theorem hash_cache_fresh_while_live
    (uri0 : string) (handle0 : Z) (source language : string) (kind : CellKind)
    (outs : list ICellOutput) (metadata : option (gmap string JsValue))
    (transient : TransientOptions) (ops : list Op) :
  forallb keepsCache ops = true ->
  let w := run ops (boot (construct uri0 handle0 source language kind outs
                            metadata transient)) in
  cacheFresh w = true
  /\ (forall l, _hash (cell (set_language l w)) = None
                /\ (getHashValue (set_language l w)).1
                   = freshHash (set_language l w))
  /\ (forall m, _hash (cell (set_metadata m w)) = None
                /\ (getHashValue (set_metadata m w)).1
                   = freshHash (set_metadata m w))
  /\ (forall newLines, _hash (cell (applyEdits newLines w)) = None
                       /\ (getHashValue (applyEdits newLines w)).1
                          = freshHash (applyEdits newLines w)).
Proof.
  intros Hops w.
  assert (Hw : listening w /\ cacheFresh w = true).
  { apply live_run; [done|]. by split. }
  destruct Hw as [Hl Hc].
  split; [done|].
  split; [|split].
  - intros l. split; [done|]. by apply getHashValue_uncached.
  - intros m. split; [done|]. by apply getHashValue_uncached.
  - intros newLines.
    assert (He : _hash (cell (applyEdits newLines w)) = None)
      by (by rewrite (applyEdits_listening _ _ Hl)).
    split; [done|]. by apply getHashValue_uncached.
Qed.

End Cache.

Lemma hash_cache_fresh_while_live_witness :
  cacheFresh Sample.sumHash Sample.oneLine
    (run Sample.sumHash Sample.oneLine
       [GetHashValue; SetLanguage "r"; Edit ["x <- 1"]; GetHashValue]
       (boot Sample.cell3))
  = true.
Proof.
  apply (hash_cache_fresh_while_live Sample.sumHash Sample.oneLine
           "cell:1" 1 "print(1)" "python" Code
           [Sample.x0; Sample.x1; Sample.x2] None Sample.noTransient
           [GetHashValue; SetLanguage "r"; Edit ["x <- 1"]; GetHashValue]).
  reflexivity.
Defined.

(** C4 as stated fails: a splice of the output list leaves the cached hash
    in place.  A cell with three outputs caches 17 under the sample hash;
    after one more output is spliced in, the cache still holds 17 while the
    hash of the current inputs is 18. *)
Lemma hash_cache_stale_after_splice :
  let w := run Sample.sumHash Sample.oneLine
             [GetHashValue; CallerArray 0 [(3, 0, [Sample.outA])]; SpliceOutputs 0]
             (boot Sample.cell3) in
  _hash (cell w) = Some 17
  /\ Sample.sumHash (specifiedHashInput Sample.sumHash Sample.oneLine w) = 18
  /\ cacheAsSpecified Sample.sumHash Sample.oneLine w = false.
Proof. vm_compute. repeat split. Qed.

(** Disposal changes the text the cell reports without clearing the cache:
    the cell above still holds 17 after [dispose], while the hash of the
    current inputs (empty text) is 9. *)
Lemma hash_cache_stale_after_dispose :
  let w := run Sample.sumHash Sample.oneLine [GetHashValue; Dispose]
             (boot Sample.cell3) in
  _hash (cell w) = Some 17
  /\ freshHash Sample.sumHash Sample.oneLine w = 9.
Proof. vm_compute. repeat split. Qed.

(** ** Memoization *)

(** C9. In any state reached by a sequence of calls, a call of
    [getHashValue] leaves the value it returns in the cache: the cached
    value if there was one, the hash of the current inputs otherwise.  A
    second call with nothing in between returns that stored value and leaves
    the cell as it is; it does not compute anything, for it returns the same
    whatever hash function and buffer factory it is given.  So two calls in
    a row return the same value. *)
Theorem getHashValue_memoized
    (hash hash' : HashArg -> Z)
    (bufferFactory_create bufferFactory_create' : string -> list string * EndOfLine)
    (ops : list Op) (w0 : World) :
  let w := run hash bufferFactory_create ops w0 in
  let first := getHashValue hash bufferFactory_create w in
  _hash (cell first.2) = Some first.1
  /\ first.1 = match _hash (cell w) with
               | Some h => h
               | None => freshHash hash bufferFactory_create w
               end
  /\ getHashValue hash' bufferFactory_create' first.2 = (first.1, first.2)
  /\ (getHashValue hash bufferFactory_create first.2).1 = first.1
  /\ (getHashValue hash bufferFactory_create first.2).2 = first.2.
Proof.
  intros w first.
  assert (Hc : _hash (cell first.2) = Some first.1).
  { unfold first. destruct (_hash (cell w)) as [h|] eqn:E.
    - by rewrite (getHashValue_cached _ _ _ _ E).
    - by rewrite (getHashValue_empty _ _ _ E). }
  split; [done|]. split.
  - unfold first. destruct (_hash (cell w)) as [h|] eqn:E.
    + by rewrite (getHashValue_cached _ _ _ _ E).
    + by apply getHashValue_uncached.
  - by rewrite !(getHashValue_cached _ _ _ _ Hc).
Qed.

(** * Further properties of the cell *)

(** ** Reading the text *)

Section Reading.

Variable bufferFactory_create : string -> list string * EndOfLine.

Local Abbreviation textBuffer := (textBuffer bufferFactory_create).
Local Abbreviation getValue := (getValue bufferFactory_create).
Local Abbreviation getFullModelRange := (getFullModelRange bufferFactory_create).
Local Abbreviation getTextLength := (getTextLength bufferFactory_create).

Implicit Types (w : World) (b : TextBuffer).

Lemma substring_whole (s : string) : String.substring 0 (String.length s) s = s.
Proof. induction s as [|c s IH]; [done|]. simpl. by rewrite IH. Qed.

Lemma init_and_last (d : string) (l : list string) :
  l <> [] -> take (length l - 1) l ++ [nth (length l - 1) l d] = l.
Proof.
  destruct l as [|x l _] using rev_ind; [done|]. intros _.
  rewrite length_app. simpl.
  replace (length l + 1 - 1)%nat with (length l) by lia.
  rewrite take_app_length. f_equal.
  rewrite app_nth2 by lia. by rewrite Nat.sub_diag.
Qed.

Lemma preferred_own b :
  Buffer.preferred b
    (if String.eqb (Buffer.getEOL b) Buffer.newline then PreferLF else PreferCRLF)
  = Buffer.getEOL b.
Proof. unfold Buffer.getEOL. by destruct (buf_eol b). Qed.

(** The full range covers the whole buffer. *)
Lemma valueOf_joined b :
  buf_lines b <> [] ->
  valueOf b = Buffer.join (Buffer.getEOL b) (buf_lines b).
Proof.
  intros Hne.
  assert (Hv : forall p, Buffer.preferred b p = Buffer.getEOL b ->
            Buffer.getValueInRange b (fullRangeOf b) p
            = Buffer.join (Buffer.getEOL b) (buf_lines b)).
  { intros p Hp.
    unfold Buffer.getValueInRange, fullRangeOf, Buffer.getLineCount,
      Buffer.getLineLength, Buffer.getLineContent.
    cbn [startLineNumber endLineNumber startColumn endColumn].
    destruct (buf_lines b) as [|first rest] eqn:El; [done|].
    destruct rest as [|second rest].
    - simpl. rewrite Nat.add_sub. apply substring_whole.
    - replace (1 =? length (first :: second :: rest))%nat with false
        by (symmetry; apply Nat.eqb_neq; simpl; lia).
      rewrite Hp. f_equal.
      cbn [length Nat.sub nth drop]. rewrite Nat.sub_0_r.
      rewrite !Nat.add_sub, !substring_whole. f_equal.
      replace (length rest) with (length (second :: rest) - 1)%nat at 1
        by (simpl; lia).
      replace (match length rest with
               | 0%nat => second
               | S m => nth m rest ""
               end)
        with (nth (length (second :: rest) - 1) (second :: rest) "")
        by (simpl; by rewrite Nat.sub_0_r).
      by apply init_and_last. }
  unfold valueOf. pose proof (preferred_own b) as Hp.
  destruct (String.eqb _ _); by apply Hv.
Qed.

(** X1. For a cell whose buffer is bound and has at least one line,
    [getValue] returns all lines joined by the buffer's own line terminator
    and leaves the cell as it is, and [getTextLength] is the length of that
    text. *)
Theorem getValue_joins_lines w b :
  _textBuffer (cell w) = Some b ->
  buf_lines b <> [] ->
  getValue w = (Buffer.join (Buffer.getEOL b) (buf_lines b), w)
  /\ (getTextLength w).1 = String.length (getValue w).1.
Proof.
  intros Hb Hne.
  rewrite getValue_eq, getTextLength_eq, (textBuffer_bound _ _ _ Hb).
  cbn [fst snd]. by rewrite (valueOf_joined _ Hne).
Qed.

(** X2. [getValue], [getTextLength] and [getFullModelRange] have the one
    effect of an access to the buffer, and reading again, in any order,
    returns the same results without a further effect. *)
Theorem reads_are_repeatable w :
  (getValue w).2 = (textBuffer w).2
  /\ (getTextLength w).2 = (textBuffer w).2
  /\ (getFullModelRange w).2 = (textBuffer w).2
  /\ getValue (getTextLength w).2 = ((getValue w).1, (textBuffer w).2)
  /\ getTextLength (getValue w).2 = ((getTextLength w).1, (textBuffer w).2)
  /\ getFullModelRange (getValue w).2
     = ((getFullModelRange w).1, (textBuffer w).2).
Proof.
  rewrite !getValue_eq, !getTextLength_eq, !getFullModelRange_eq.
  cbn [fst snd].
  by rewrite ?getValue_eq, ?getTextLength_eq, ?getFullModelRange_eq,
    !textBuffer_again.
Qed.

(** X3. A disposed cell reads as empty: [getValue] returns the empty
    string, the full range is line 1 column 1 to line 1 column 1, and
    neither read changes the cell. *)
Theorem disposed_cell_reads_empty w :
  getValue (dispose w) = ("", dispose w)
  /\ getFullModelRange (dispose w) = (mkRange 1 1 1 1, dispose w).
Proof.
  rewrite getValue_eq, getFullModelRange_eq.
  by rewrite (textBuffer_bound _ _ _ (dispose_binds_placeholder w)).
Qed.

End Reading.

Lemma getValue_joins_lines_witness :
  (getTextLength Sample.oneLine
     (applyEdits Sample.oneLine ["x"; "y"] (boot Sample.cell3))).1
  = String.length
      (getValue Sample.oneLine
         (applyEdits Sample.oneLine ["x"; "y"] (boot Sample.cell3))).1.
Proof.
  apply (getValue_joins_lines Sample.oneLine
           (applyEdits Sample.oneLine ["x"; "y"] (boot Sample.cell3))
           (mkBuffer 0 ["x"; "y"] LF false 1)).
  - reflexivity.
  - discriminate.
Defined.


(** ** The life of the buffer and of the cache *)

Section Lifecycle.

Variable hash : HashArg -> Z.
Variable bufferFactory_create : string -> list string * EndOfLine.

Local Abbreviation textBuffer := (textBuffer bufferFactory_create).
Local Abbreviation builtBuffer := (builtBuffer bufferFactory_create).
Local Abbreviation getHashValue := (getHashValue hash bufferFactory_create).
Local Abbreviation applyEdits := (applyEdits bufferFactory_create).
Local Abbreviation freshHash := (freshHash hash bufferFactory_create).
Local Abbreviation step := (step hash bufferFactory_create).
Local Abbreviation run := (run hash bufferFactory_create).

Implicit Types (w : World) (o : Op) (b : TextBuffer).

Lemma counts_steady w w' (es : list Effect) :
  effects w' = effects w ++ es ->
  List.filter isBufferBuilt es = [] ->
  List.filter isListenerAttached es = [] ->
  constructions w' = constructions w /\ subscriptions w' = subscriptions w.
Proof.
  intros He Hb Hl. unfold constructions, subscriptions.
  by rewrite He, !List.filter_app, Hb, Hl, !app_nil_r.
Qed.

Lemma applyEdits_bound w b (newLines : list string) :
  _textBuffer (cell w) = Some b ->
  applyEdits newLines w
  = Nat.iter (buf_listeners b) contentListener
      (on_cell
         (with_textBuffer
            (Some (mkBuffer (buf_id b) newLines (buf_eol b) (buf_disposed b)
                     (buf_listeners b)))) w).
Proof. intros Hb. unfold applyEdits. by rewrite (textBuffer_bound _ _ _ Hb). Qed.

Lemma bound_step w o :
  is_Some (_textBuffer (cell w)) ->
  is_Some (_textBuffer (cell (step w o)))
  /\ constructions (step w o) = constructions w
  /\ subscriptions (step w o) = subscriptions w.
Proof.
  intros [b Hb]. destruct o; unfold step.
  - split; [by exists b|]. by apply (counts_steady w _ [MetadataChanged]).
  - split; [by exists b|]. by apply (counts_steady w _ [LanguageChanged l]).
  - rewrite (textBuffer_bound _ _ _ Hb). eauto.
  - rewrite getValue_eq, (textBuffer_bound _ _ _ Hb). eauto.
  - destruct (_hash (cell w)) as [h|] eqn:E.
    + rewrite (getHashValue_cached _ _ _ _ E). eauto.
    + rewrite (getHashValue_empty _ _ _ E), (textBuffer_bound _ _ _ Hb).
      split; [by exists b|]. apply (counts_steady w _ []); [|done..].
      by rewrite app_nil_r.
  - rewrite getTextLength_eq, (textBuffer_bound _ _ _ Hb). eauto.
  - rewrite getFullModelRange_eq, (textBuffer_bound _ _ _ Hb). eauto.
  - eauto.
  - split; [by exists b|]. apply (counts_steady w _ []); [|done..].
    by rewrite app_nil_r.
  - rewrite spliceNotebookCellOutputs_unfold.
    split; [by exists b|].
    by apply (counts_steady w _ [OutputsChanged r (rev (deref r w))]).
  - rewrite (applyEdits_bound _ _ _ Hb), listeners_fire.
    split; [destruct (buf_listeners b); simpl; eauto|].
    apply (counts_steady w _ (replicate (buf_listeners b) ContentChanged));
      [done|by apply filter_not_content..].
  - rewrite dispose_unfold, super_dispose_unfold. simpl.
    destruct (isDisposed (_store (cell w))).
    + split; [simpl; eauto|].
      by apply (counts_steady w _ [PlaceholderBuilt (allocated w)]).
    + split; [simpl; eauto|].
      apply (counts_steady w _
               (PlaceholderBuilt (allocated w)
                  :: (Released <$> toDispose (_store (cell w)))));
        [by rewrite <- app_assoc|simpl; by apply filter_not_released..].
Qed.

(** X4. Once a buffer is bound to the cell, whether built from the source
    or installed by [dispose], no later call builds a buffer or attaches a
    listener again, and the cell never goes back to having no buffer. *)
Theorem bound_buffer_never_rebuilt (ops : list Op) (w : World) :
  is_Some (_textBuffer (cell w)) ->
  is_Some (_textBuffer (cell (run ops w)))
  /\ constructions (run ops w) = constructions w
  /\ subscriptions (run ops w) = subscriptions w.
Proof.
  revert w. induction ops as [|o ops IH]; intros w Hw; [done|].
  destruct (bound_step w o Hw) as (Hb & Hc & Hs).
  destruct (IH _ Hb) as (Hb' & Hc' & Hs').
  cbn [run fold_left] in *. unfold run in *. cbn [fold_left].
  split; [done|]. split; congruence.
Qed.

Lemma registeredFor_textBuffer w : registeredFor w -> registeredFor (textBuffer w).2.
Proof.
  intros Hw. destruct (_textBuffer (cell w)) as [b|] eqn:E.
  - by rewrite (textBuffer_bound _ _ _ E).
  - rewrite (textBuffer_unbound _ _ E).
    destruct Hw as [Hd Ht]. rewrite E in Ht.
    unfold registeredFor, storeWith. simpl. by rewrite Hd, Ht.
Qed.

Lemma registeredFor_step w o :
  keepsLive o = true -> registeredFor w -> registeredFor (step w o).
Proof.
  intros Ho Hw. destruct o; try discriminate Ho; unfold step.
  - done.
  - done.
  - by apply registeredFor_textBuffer.
  - rewrite getValue_eq. by apply registeredFor_textBuffer.
  - destruct (_hash (cell w)) as [h|] eqn:E.
    + by rewrite (getHashValue_cached _ _ _ _ E).
    + rewrite (getHashValue_empty _ _ _ E). by apply registeredFor_textBuffer.
  - rewrite getTextLength_eq. by apply registeredFor_textBuffer.
  - rewrite getFullModelRange_eq. by apply registeredFor_textBuffer.
  - done.
  - done.
  - by rewrite spliceNotebookCellOutputs_unfold.
  - apply registeredFor_textBuffer in Hw. unfold registeredFor in Hw.
    rewrite textBuffer_binds in Hw.
    unfold applyEdits. destruct (textBuffer w) as [b w1]. cbn [fst snd] in Hw.
    rewrite listeners_fire. unfold registeredFor. simpl.
    by destruct (buf_listeners b).
Qed.

Lemma registeredFor_run (ops : list Op) : forall w,
  forallb keepsLive ops = true -> registeredFor w -> registeredFor (run ops w).
Proof.
  induction ops as [|o ops IH]; intros w Hops Hw; [done|].
  simpl in Hops. apply andb_prop in Hops as [Ho Hops].
  apply (IH _ Hops). by apply registeredFor_step.
Qed.

(** X5. Disposing a cell that has not been disposed before releases
    exactly what the getter registered: nothing when no buffer was ever
    built, and otherwise the buffer's handle followed by the listener's
    subscription, each once; afterwards the store is disposed and keeps
    nothing. *)
Theorem dispose_releases_what_was_registered
    (uri0 : string) (handle0 : Z) (source language : string) (kind : CellKind)
    (outs : list ICellOutput) (metadata : option (gmap string JsValue))
    (transient : TransientOptions) (ops : list Op) :
  forallb keepsLive ops = true ->
  let w := run ops (boot (construct uri0 handle0 source language kind outs
                            metadata transient)) in
  effects (dispose w)
  = effects w
      ++ PlaceholderBuilt (allocated w)
      :: match _textBuffer (cell w) with
         | Some b => [Released (BufferHandle (buf_id b));
                      Released (ContentSubscription (buf_id b))]
         | None => []
         end
  /\ _store (cell (dispose w)) = mkStore true [].
Proof.
  intros Hops w.
  assert (Hw : registeredFor w) by (apply registeredFor_run; [done|by split]).
  destruct Hw as [Hd Ht].
  rewrite dispose_unfold, super_dispose_unfold. simpl. rewrite Hd, Ht. simpl.
  rewrite <- app_assoc. by destruct (_textBuffer (cell w)).
Qed.

Lemma getHashValue_caches w :
  _hash (cell (getHashValue w).2) = Some (getHashValue w).1.
Proof.
  destruct (_hash (cell w)) as [h|] eqn:E.
  - by rewrite (getHashValue_cached _ _ _ _ E).
  - by rewrite (getHashValue_empty _ _ _ E).
Qed.

Lemma dispose_keeps_hash w : _hash (cell (dispose w)) = _hash (cell w).
Proof.
  rewrite dispose_unfold, super_dispose_unfold. simpl.
  by destruct (isDisposed (_store (cell w))).
Qed.

(** X6. Neither a splice of the outputs nor [dispose] clears the cached
    hash: once [getHashValue] has been called, a call after either of them
    returns the value it returned before. *)
Theorem cached_hash_survives_splice_and_dispose (r : nat) w :
  (getHashValue (spliceNotebookCellOutputs r (getHashValue w).2)).1
  = (getHashValue w).1
  /\ (getHashValue (dispose (getHashValue w).2)).1 = (getHashValue w).1.
Proof.
  pose proof (getHashValue_caches w) as Hc. split.
  - by rewrite (getHashValue_cached _ _ _ (getHashValue w).1)
      by (by rewrite hash_after_splice).
  - by rewrite (getHashValue_cached _ _ _ (getHashValue w).1)
      by (by rewrite dispose_keeps_hash).
Qed.

(** X7. When outputs are transient the hash does not depend on the output
    list: with the cache empty, [getHashValue] returns the same value after
    a splice as before it. *)
Theorem transient_outputs_leave_hash (r : nat) w :
  _hash (cell w) = None ->
  transientOutputs (transientOptions (cell w)) = true ->
  (getHashValue (spliceNotebookCellOutputs r w)).1 = (getHashValue w).1.
Proof.
  intros He Ht.
  rewrite !getHashValue_uncached by (by rewrite ?hash_after_splice).
  rewrite spliceNotebookCellOutputs_unfold.
  unfold freshHash, currentValue, hashInput. simpl. rewrite Ht.
  by rewrite (textBuffer_ext bufferFactory_create w
                (emit _ (on_cell _ (with_arrays _ w)))).
Qed.

End Lifecycle.

Lemma bound_buffer_never_rebuilt_witness :
  constructions
    (run Sample.sumHash Sample.oneLine
       [GetValue; Edit ["x"]; GetHashValue; ReadTextBuffer]
       (dispose (boot Sample.cell3)))
  = 0%nat.
Proof.
  apply (bound_buffer_never_rebuilt Sample.sumHash Sample.oneLine
           [GetValue; Edit ["x"]; GetHashValue; ReadTextBuffer]
           (dispose (boot Sample.cell3))).
  by eexists.
Defined.

Lemma dispose_releases_what_was_registered_witness :
  effects
    (dispose
       (run Sample.sumHash Sample.oneLine [GetValue; SetLanguage "r"]
          (boot Sample.cell3)))
  = [BufferBuilt 0 "print(1)"; ListenerAttached 0; LanguageChanged "r";
     PlaceholderBuilt 1; Released (BufferHandle 0);
     Released (ContentSubscription 0)].
Proof.
  apply (dispose_releases_what_was_registered Sample.sumHash Sample.oneLine
           "cell:1" 1 "print(1)" "python" Code
           [Sample.x0; Sample.x1; Sample.x2] None Sample.noTransient
           [GetValue; SetLanguage "r"]).
  reflexivity.
Defined.

Lemma transient_outputs_leave_hash_witness :
  (getHashValue Sample.sumHash Sample.oneLine
     (spliceNotebookCellOutputs 0
        (with_arrays {[ 0%nat := Sample.ascendingBatch ]}
           (boot (construct "cell:2" 2 "1+1" "r" Code [Sample.x0] None
                    (mkTransient ∅ true)))))).1
  = 4.
Proof.
  rewrite (transient_outputs_leave_hash Sample.sumHash Sample.oneLine 0
             (with_arrays {[ 0%nat := Sample.ascendingBatch ]}
                (boot (construct "cell:2" 2 "1+1" "r" Code [Sample.x0] None
                         (mkTransient ∅ true))))).
  - reflexivity.
  - reflexivity.
  - reflexivity.
Defined.

(** ** Notifications *)

Section Notifications.

Variable hash : HashArg -> Z.
Variable bufferFactory_create : string -> list string * EndOfLine.

Local Abbreviation textBuffer := (textBuffer bufferFactory_create).
Local Abbreviation applyEdits := (applyEdits bufferFactory_create).
Local Abbreviation relayed := (relayed bufferFactory_create).
Local Abbreviation step := (step hash bufferFactory_create).
Local Abbreviation run := (run hash bufferFactory_create).

Implicit Types (w : World) (o : Op) (p : Effect -> bool).

Lemma filter_textBuffer p w :
  overChanges p ->
  List.filter p (effects (textBuffer w).2) = List.filter p (effects w).
Proof.
  intros (Hb & Hl & _). destruct (_textBuffer (cell w)) as [b|] eqn:E.
  - by rewrite (textBuffer_bound _ _ _ E).
  - rewrite (textBuffer_unbound _ _ E). simpl.
    by rewrite List.filter_app; simpl; rewrite Hb, Hl, app_nil_r.
Qed.

Lemma filter_step p w o :
  overChanges p ->
  List.filter p (effects (step w o))
  = List.filter p (effects w)
      ++ List.filter p (announced w o) ++ List.filter p (relayed w o).
Proof.
  intros Hp. pose proof Hp as (Hb & Hl & Hpl & Hr).
  destruct o; unfold step, announced, relayed; cbn [List.filter];
    rewrite ?app_nil_r.
  - unfold set_metadata, emit. simpl. by rewrite List.filter_app.
  - unfold set_language, emit. simpl. by rewrite List.filter_app.
  - by rewrite filter_textBuffer.
  - rewrite getValue_eq. cbn [snd]. by rewrite filter_textBuffer.
  - destruct (_hash (cell w)) as [h|] eqn:E.
    + by rewrite (getHashValue_cached _ _ _ _ E).
    + rewrite (getHashValue_empty _ _ _ E). cbn [snd].
      by rewrite <- (filter_textBuffer p w).
  - rewrite getTextLength_eq. cbn [snd]. by rewrite filter_textBuffer.
  - rewrite getFullModelRange_eq. cbn [snd]. by rewrite filter_textBuffer.
  - done.
  - done.
  - rewrite spliceNotebookCellOutputs_unfold.
    unfold emit. simpl. by rewrite List.filter_app.
  - unfold applyEdits.
    rewrite <- (filter_textBuffer p w) by done.
    destruct (textBuffer w) as [b w1]. rewrite listeners_fire. simpl.
    by rewrite List.filter_app.
  - rewrite dispose_unfold, super_dispose_unfold. simpl.
    destruct (isDisposed (_store (cell w))); simpl.
    + by rewrite List.filter_app; simpl; rewrite Hpl, app_nil_r.
    + rewrite !List.filter_app. simpl.
      by rewrite Hpl, filter_not_released, !app_nil_r.
Qed.

Lemma count_run p (q : Op -> bool) (ops : list Op) :
  overChanges p ->
  p ContentChanged = false ->
  (forall w o, length (List.filter p (announced w o)) = if q o then 1%nat else 0%nat) ->
  forall w,
    length (List.filter p (effects (run ops w)))
    = (length (List.filter p (effects w)) + length (List.filter q ops))%nat.
Proof.
  intros Hp Hc Hq. induction ops as [|o ops IH]; intros w.
  - simpl. lia.
  - unfold run in *. cbn [fold_left]. rewrite IH, (filter_step p w o Hp).
    assert (Hrel : List.filter p (relayed w o) = []).
    { unfold relayed. destruct o; try done. by apply filter_not_content. }
    rewrite Hrel, app_nil_r, length_app, Hq. simpl. destruct (q o); simpl; lia.
Qed.

(** X8. Notifications are one to one with the calls that fire them: over
    any history of calls, the number of metadata-changed notifications grows
    by the number of metadata assignments, that of language-changed
    notifications by the number of language assignments, and that of
    outputs-changed notifications by the number of splice calls.  No
    assignment is swallowed, not even one that assigns the value already
    held, and no other call fires any of the three. *)
Theorem notifications_match_calls (ops : list Op) (w : World) :
  length (List.filter isMetadataChanged (effects (run ops w)))
  = (length (List.filter isMetadataChanged (effects w))
     + length (List.filter isSetMetadata ops))%nat
  /\ length (List.filter isLanguageChanged (effects (run ops w)))
     = (length (List.filter isLanguageChanged (effects w))
        + length (List.filter isSetLanguage ops))%nat
  /\ length (List.filter isOutputsChanged (effects (run ops w)))
     = (length (List.filter isOutputsChanged (effects w))
        + length (List.filter isSpliceOutputs ops))%nat.
Proof.
  repeat split; apply count_run; try (by repeat split);
    by intros w' [].
Qed.

Lemma listening_step o w :
  keepsLive o = true -> listening w -> listening (step w o).
Proof.
  intros Ho Hw. destruct o; try discriminate Ho; unfold step.
  - done.
  - done.
  - by apply listening_textBuffer.
  - rewrite getValue_eq. by apply listening_textBuffer.
  - destruct (_hash (cell w)) as [h|] eqn:E.
    + by rewrite (getHashValue_cached _ _ _ _ E).
    + rewrite (getHashValue_empty _ _ _ E). by apply listening_textBuffer.
  - rewrite getTextLength_eq. by apply listening_textBuffer.
  - rewrite getFullModelRange_eq. by apply listening_textBuffer.
  - done.
  - done.
  - by rewrite spliceNotebookCellOutputs_unfold.
  - by rewrite (applyEdits_listening _ _ _ Hw).
Qed.

Lemma content_count_run (ops : list Op) : forall w,
  forallb keepsLive ops = true ->
  listening w ->
  length (List.filter isContentChanged (effects (run ops w)))
  = (length (List.filter isContentChanged (effects w))
     + length (List.filter isEdit ops))%nat.
Proof.
  induction ops as [|o ops IH]; intros w Hops Hw.
  - simpl. lia.
  - simpl in Hops. apply andb_prop in Hops as [Ho Hops].
    unfold run in *. cbn [fold_left].
    rewrite (IH _ Hops (listening_step o w Ho Hw)).
    rewrite (filter_step isContentChanged w o) by (by repeat split).
    rewrite !length_app.
    assert (Ha : List.filter isContentChanged (announced w o) = [])
      by (by destruct o).
    rewrite Ha. simpl.
    destruct o; simpl; try lia.
    apply listening_textBuffer with (bufferFactory_create := bufferFactory_create) in Hw.
    unfold listening in Hw. rewrite textBuffer_binds in Hw.
    rewrite Hw. simpl. lia.
Qed.

(** X9. While a cell has not been disposed, every content edit through
    the buffer is relayed as exactly one content-changed notification, and
    no other call fires one: over a history without [dispose], starting at
    the constructor, the notifications fired are as many as the edits. *)
Theorem content_changes_match_edits
    (uri0 : string) (handle0 : Z) (source language : string) (kind : CellKind)
    (outs : list ICellOutput) (metadata : option (gmap string JsValue))
    (transient : TransientOptions) (ops : list Op) :
  forallb keepsLive ops = true ->
  length (List.filter isContentChanged
            (effects (run ops (boot (construct uri0 handle0 source language
                                       kind outs metadata transient)))))
  = length (List.filter isEdit ops).
Proof.
  intros Hops. by rewrite content_count_run.
Qed.

End Notifications.

Lemma content_changes_match_edits_witness :
  length (List.filter isContentChanged
            (effects (run Sample.sumHash Sample.oneLine
                        [Edit ["a"]; GetHashValue; SpliceOutputs 0; Edit ["b"]]
                        (boot Sample.cell3))))
  = 2%nat.
Proof.
  apply (content_changes_match_edits Sample.sumHash Sample.oneLine
           "cell:1" 1 "print(1)" "python" Code
           [Sample.x0; Sample.x1; Sample.x2] None Sample.noTransient
           [Edit ["a"]; GetHashValue; SpliceOutputs 0; Edit ["b"]]).
  reflexivity.
Defined.

(** ** Metadata records *)

Section Metadata.

Implicit Types (w : World) (c : NotebookCellTextModel) (d : NotebookDocumentMetadata).

Lemma nullish_settled (a : JsValue) (x y : bool) :
  nullish (nullish a (JsBool x)) (JsBool y) = nullish a (JsBool x).
Proof. by destruct a. Qed.

(** X10. An evaluated metadata record is settled: stored back into the
    cell and evaluated again, under any document defaults, it comes out
    unchanged. *)
Theorem evaluated_metadata_is_settled d d' w :
  (getEvaluatedMetadata d'
     (set_metadata (getEvaluatedMetadata d w).1 w)).1
  = (getEvaluatedMetadata d w).1.
Proof.
  unfold getEvaluatedMetadata, set_metadata. cbn [fst cell on_cell emit _metadata with_metadata with_hash].
  set (e := nullish (prop (_metadata (cell w)) "editable") _).
  set (h := nullish (prop (_metadata (cell w)) "hasExecutionOrder") _).
  assert (He : prop (<["hasExecutionOrder":=h]> (<["editable":=e]> (_metadata (cell w))))
                 "editable" = e).
  { unfold prop. rewrite lookup_insert_ne by done. by rewrite lookup_insert_eq. }
  assert (Hh : prop (<["hasExecutionOrder":=h]> (<["editable":=e]> (_metadata (cell w))))
                 "hasExecutionOrder" = h).
  { unfold prop. by rewrite lookup_insert_eq. }
  rewrite He, Hh. unfold e, h. rewrite !nullish_settled. fold e h.
  rewrite (insert_id _ "editable" e)
    by (rewrite lookup_insert_ne by done; by rewrite lookup_insert_eq).
  by rewrite insert_id by (by rewrite lookup_insert_eq).
Qed.

Lemma cloneMetadata_prop c (k : string) :
  k ∈ clonedKeys -> prop (cloneMetadata c) k = prop (_metadata c) k.
Proof.
  unfold clonedKeys. rewrite !elem_of_union, !elem_of_singleton.
  unfold cloneMetadata, prop.
  intros [[[[[->| ->]| ->]| ->]| ->]| ->]; by simplify_map_eq.
Qed.

(** X11. [cloneMetadata] returns a record with exactly the six copied
    keys, whatever keys the cell's metadata has, and cloning the clone
    gives the same record again. *)
Theorem cloneMetadata_six_keys c :
  dom (cloneMetadata c) = clonedKeys
  /\ cloneMetadata (with_metadata (cloneMetadata c) c) = cloneMetadata c.
Proof.
  split.
  - unfold cloneMetadata, clonedKeys. rewrite !dom_insert_L, dom_empty_L.
    set_solver.
  - unfold cloneMetadata at 1. cbn [_metadata with_metadata].
    rewrite !cloneMetadata_prop by (unfold clonedKeys; set_solver).
    reflexivity.
Qed.

(** X12. Cloning the metadata keeps what evaluation makes of it: with the
    clone stored in the cell, the evaluated "editable" and
    "hasExecutionOrder" are those of the original metadata, a key the clone
    holds as undefined counting as unset. *)
Theorem clone_keeps_evaluation d w :
  (getEvaluatedMetadata d (set_metadata (cloneMetadata (cell w)) w)).1 !! "editable"
  = (getEvaluatedMetadata d w).1 !! "editable"
  /\ (getEvaluatedMetadata d (set_metadata (cloneMetadata (cell w)) w)).1
       !! "hasExecutionOrder"
     = (getEvaluatedMetadata d w).1 !! "hasExecutionOrder".
Proof.
  unfold getEvaluatedMetadata, set_metadata.
  cbn [fst cell on_cell emit _metadata with_metadata with_hash].
  rewrite !cloneMetadata_prop by (unfold clonedKeys; set_solver).
  split.
  - rewrite !(lookup_insert_ne _ "hasExecutionOrder" "editable") by done.
    by rewrite !lookup_insert_eq.
  - by rewrite !lookup_insert_eq.
Qed.


(** X19. A cell constructed without metadata starts from the empty
    record, so its evaluated metadata consists of the two document defaults
    and nothing else. *)
Theorem unset_metadata_evaluates_to_defaults
    (uri0 : string) (handle0 : Z) (source language : string) (kind : CellKind)
    (outs : list ICellOutput) (transient : TransientOptions) d :
  (getEvaluatedMetadata d
     (boot (construct uri0 handle0 source language kind outs None transient))).1
  = {[ "editable" := JsBool (cellEditable d);
       "hasExecutionOrder" := JsBool (cellHasExecutionOrder d) ]}.
Proof.
  unfold getEvaluatedMetadata, prop. simpl. rewrite !lookup_empty. simpl.
  by rewrite insert_insert_ne, insert_empty by done.
Qed.

End Metadata.

(** ** Cloning a cell *)

Section CloneCall.

Variable bufferFactory_create : string -> list string * EndOfLine.
Variable UuidSource : Type.
Variable generateUuid : UuidSource -> string * UuidSource.

Local Abbreviation textBuffer := (textBuffer bufferFactory_create).
Local Abbreviation getValue := (getValue bufferFactory_create).
Local Abbreviation cloneOutputs := (cloneOutputs UuidSource generateUuid).
Local Abbreviation advance := (advance generateUuid).
Local Abbreviation cloneNotebookCellTextModel :=
  (cloneNotebookCellTextModel bufferFactory_create UuidSource generateUuid).

Lemma cloneOutputs_advances (os : list ICellOutput) : forall g,
  (cloneOutputs os g).2 = advance (length os) g.
Proof.
  induction os as [|o os IH]; intros g; [done|].
  rewrite cloneOutputs_cons. cbn [snd length]. by rewrite IH.
Qed.

Lemma textBuffer_keeps_fields (w : World) :
  _language (cell (textBuffer w).2) = _language (cell w)
  /\ cellKind (cell (textBuffer w).2) = cellKind (cell w)
  /\ _metadata (cell (textBuffer w).2) = _metadata (cell w)
  /\ _outputs (cell (textBuffer w).2) = _outputs (cell w).
Proof.
  destruct (_textBuffer (cell w)) as [b|] eqn:E.
  - by rewrite (textBuffer_bound _ _ _ E).
  - by rewrite (textBuffer_unbound _ _ E).
Qed.

(** X14. Cloning reads the cell and draws identifiers, nothing more: its
    only effect on the cell is the one access to the buffer that reading the
    text takes, the generator is advanced by exactly one draw per output
    record (none for a cell without outputs), and the snapshot holds the
    cell's text, language, kind, as many outputs, and the cloned
    metadata. *)
Theorem clone_only_reads (w : World) (g : UuidSource) :
  (cloneNotebookCellTextModel w g).1.2 = (textBuffer w).2
  /\ (cloneNotebookCellTextModel w g).2 = advance (length (_outputs (cell w))) g
  /\ snap_source (cloneNotebookCellTextModel w g).1.1 = (getValue w).1
  /\ snap_language (cloneNotebookCellTextModel w g).1.1 = _language (cell w)
  /\ snap_cellKind (cloneNotebookCellTextModel w g).1.1 = cellKind (cell w)
  /\ length (snap_outputs (cloneNotebookCellTextModel w g).1.1)
     = length (_outputs (cell w))
  /\ snap_metadata (cloneNotebookCellTextModel w g).1.1 = cloneMetadata (cell w).
Proof.
  destruct (textBuffer_keeps_fields w) as (Hl & Hk & Hm & Ho).
  unfold cloneNotebookCellTextModel. rewrite getValue_eq, Ho.
  pose proof (cloneOutputs_advances (_outputs (cell w)) g) as Ha.
  pose proof (f_equal length (cloneOutputs_content _ generateUuid (_outputs (cell w)) g))
    as Hlen.
  rewrite !length_fmap in Hlen.
  destruct (cloneOutputs (_outputs (cell w)) g) as [outs g1].
  cbn [fst snd snap_source snap_language snap_cellKind snap_outputs snap_metadata]
    in *.
  unfold cloneMetadata. by rewrite Hl, Hk, Hm.
Qed.

End CloneCall.

(** ** More on splicing *)

Section SpliceEdges.

Implicit Types (w : World) (batch : list NotebookCellOutputsSplice)
  (l : list ICellOutput).

Lemma splice_noop l (start count : Z) :
  count <= 0 -> JsArray.splice l start count [] = l.
Proof.
  intros Hc. unfold JsArray.splice. cbn [app].
  set (a := if start <? 0 then _ else _).
  assert (0 <= a <= Z.of_nat (length l)) by (unfold a; destruct (Z.ltb_spec start 0); lia).
  replace (a + Z.min (Z.max count 0) (Z.of_nat (length l) - a)) with a by lia.
  apply take_drop.
Qed.

Lemma applyReversed_noops batch : forall l,
  forallb isNoop batch = true -> applyReversed l batch = l.
Proof.
  induction batch as [|s batch IH]; intros l Hb; [done|].
  simpl in Hb. apply andb_prop in Hb as [Hs Hb].
  unfold isNoop in Hs. apply andb_prop in Hs as [Hc Hi].
  apply bool_decide_eq_true in Hi.
  cbn [applyReversed foldr]. fold (applyReversed l batch).
  rewrite (IH l Hb), Hi. apply splice_noop. lia.
Qed.

(** X15. A batch whose splices delete nothing and insert nothing leaves
    the output list as it is, wherever the splices point: beyond the end,
    before the start, or with a negative delete count.  The empty batch is
    the simplest case. *)
Theorem noop_batch_keeps_outputs (r : nat) w batch :
  arrays w !! r = Some batch ->
  forallb isNoop batch = true ->
  _outputs (cell (spliceNotebookCellOutputs r w)) = _outputs (cell w).
Proof.
  intros Hr Hb. rewrite outputs_after_splice, (deref_lookup _ _ _ Hr).
  by apply applyReversed_noops.
Qed.

(** X16. Passing the same array to two calls in a row puts it back in
    the order submitted: the first call reverses it, the second reverses it
    again, and the second notification carries the batch in the order
    submitted while the second application ran over the splices first to
    last. *)
Theorem splice_twice_restores_argument (r : nat) w batch :
  arrays w !! r = Some batch ->
  arrays (spliceNotebookCellOutputs r (spliceNotebookCellOutputs r w)) !! r
  = Some batch
  /\ effects (spliceNotebookCellOutputs r (spliceNotebookCellOutputs r w))
     = effects w ++ [OutputsChanged r (rev batch); OutputsChanged r batch]
  /\ _outputs (cell (spliceNotebookCellOutputs r (spliceNotebookCellOutputs r w)))
     = applyReversed (applyReversed (_outputs (cell w)) batch) (rev batch).
Proof.
  intros Hr.
  assert (Hd : deref r (spliceNotebookCellOutputs r w) = rev batch).
  { rewrite spliceNotebookCellOutputs_unfold, (deref_lookup _ _ _ Hr).
    unfold deref. simpl. by rewrite lookup_insert_eq. }
  rewrite (spliceNotebookCellOutputs_unfold r (spliceNotebookCellOutputs r w)).
  rewrite Hd, rev_involutive. cbn [arrays effects cell emit on_cell with_arrays
                                     _outputs with_outputs].
  split; [by rewrite lookup_insert_eq|].
  split.
  - rewrite spliceNotebookCellOutputs_unfold, (deref_lookup _ _ _ Hr). simpl.
    by rewrite <- app_assoc.
  - by rewrite outputs_after_splice, (deref_lookup _ _ _ Hr).
Qed.

(** X17. A single splice that starts at or beyond the end of the output
    list appends its records and deletes nothing, whatever its delete
    count. *)
Theorem splice_beyond_end_appends (r : nat) w (start count : Z)
    (items : list ICellOutput) :
  arrays w !! r = Some [(start, count, items)] ->
  Z.of_nat (length (_outputs (cell w))) <= start ->
  _outputs (cell (spliceNotebookCellOutputs r w)) = _outputs (cell w) ++ items.
Proof.
  intros Hr Hs. rewrite outputs_after_splice, (deref_lookup _ _ _ Hr).
  unfold applyReversed, JsArray.splice, splice_start, splice_count, splice_items.
  cbn [foldr fst snd].
  destruct (Z.ltb_spec start 0); [lia|].
  rewrite Z.min_r by lia.
  replace (Z.min (Z.max count 0) _) with 0 by lia.
  rewrite Z.add_0_r, Nat2Z.id.
  by rewrite firstn_all, drop_all, app_nil_r.
Qed.

Lemma splice_in_range_length l (start count : Z) (items : list ICellOutput) :
  0 <= start -> 0 <= count -> start + count <= Z.of_nat (length l) ->
  Z.of_nat (length (JsArray.splice l start count items))
  = Z.of_nat (length l) + Z.of_nat (length items) - count.
Proof.
  intros Hs Hc He. unfold JsArray.splice.
  destruct (Z.ltb_spec start 0); [lia|].
  rewrite Z.min_l by lia. rewrite Z.max_l by lia. rewrite Z.min_l by lia.
  rewrite !length_app, length_take, length_drop. lia.
Qed.

Lemma applyReversed_length batch : forall lo l,
  0 <= lo ->
  ascending_from lo batch (Z.of_nat (length l)) = true ->
  Z.of_nat (length (applyReversed l batch))
  = Z.of_nat (length l) + batchGrowth batch.
Proof.
  induction batch as [|s batch IH]; intros lo l Hlo Hasc.
  - simpl. lia.
  - simpl in Hasc. repeat (apply andb_prop in Hasc as [Hasc ?]).
    assert (Hge : splice_start s + splice_count s
                  <= Z.of_nat (length (applyReversed l batch))).
    { rewrite (applyReversed_ascending batch (splice_start s + splice_count s) l)
        by (done || lia).
      rewrite length_app, length_take. lia. }
    cbn [applyReversed foldr batchGrowth]. fold (applyReversed l batch).
    fold (batchGrowth batch).
    rewrite splice_in_range_length by lia.
    rewrite (IH (splice_start s + splice_count s) l) by (done || lia).
    lia.
Qed.

(** X18. For a batch in ascending position order within the output list,
    the list grows by the number of records inserted minus the number
    deleted, summed over the batch. *)
Theorem ascending_batch_length (r : nat) w batch :
  arrays w !! r = Some batch ->
  ascending_from 0 batch (Z.of_nat (length (_outputs (cell w)))) = true ->
  Z.of_nat (length (_outputs (cell (spliceNotebookCellOutputs r w))))
  = Z.of_nat (length (_outputs (cell w))) + batchGrowth batch.
Proof.
  intros Hr Hasc. rewrite outputs_after_splice, (deref_lookup _ _ _ Hr).
  by apply (applyReversed_length batch 0).
Qed.

End SpliceEdges.

Lemma noop_batch_keeps_outputs_witness :
  _outputs (cell (spliceNotebookCellOutputs 0
                    (Sample.world3 [ (5, 0, []); (-3, -1, []) ])))
  = [Sample.x0; Sample.x1; Sample.x2].
Proof.
  apply (noop_batch_keeps_outputs 0
           (Sample.world3 [ (5, 0, []); (-3, -1, []) ])
           [ (5, 0, []); (-3, -1, []) ]).
  - reflexivity.
  - reflexivity.
Defined.

Lemma splice_twice_restores_argument_witness :
  arrays (spliceNotebookCellOutputs 0
            (spliceNotebookCellOutputs 0 (Sample.world3 Sample.ascendingBatch)))
    !! 0%nat
  = Some Sample.ascendingBatch.
Proof.
  apply (splice_twice_restores_argument 0
           (Sample.world3 Sample.ascendingBatch) Sample.ascendingBatch).
  reflexivity.
Defined.

Lemma splice_beyond_end_appends_witness :
  _outputs (cell (spliceNotebookCellOutputs 0
                    (Sample.world3 [ (7, 2, [Sample.outA]) ])))
  = [Sample.x0; Sample.x1; Sample.x2; Sample.outA].
Proof.
  apply (splice_beyond_end_appends 0
           (Sample.world3 [ (7, 2, [Sample.outA]) ]) 7 2 [Sample.outA]).
  - reflexivity.
  - simpl. lia.
Defined.

Lemma ascending_batch_length_witness :
  Z.of_nat
    (length (_outputs (cell (spliceNotebookCellOutputs 0
                               (Sample.world3 Sample.ascendingBatch)))))
  = 4.
Proof.
  apply (ascending_batch_length 0
           (Sample.world3 Sample.ascendingBatch) Sample.ascendingBatch).
  - reflexivity.
  - reflexivity.
Defined.
